(** * Vibe Station API: the project service of [main.py]

    A shallow embedding of the FastAPI handlers of [src/main.py] over an
    explicit model of the document store, and the properties of the
    specification that were checked against it.

    Conventions of the model:
    - a Python [dict] with text keys (a request body, a stored document, a
      Mongo filter) is a [gmap string _];
    - Python text is a [string] holding its UTF-8 bytes; [str.lower] and
      [str.split] are modelled on the ASCII range, bytes above it are
      carried through unchanged;
    - a Python [float] is a rational number ([Q]);
    - a handler is a function of the store (and of the clock reading when
      it calls [datetime.now]) returning its outcome and the new store. *)

From Stdlib Require Import Ascii String NArith ZArith QArith.
From stdpp Require Import gmap strings list fin_maps.

Set Warnings "-register-all".
Open Scope string_scope.
Open Scope N_scope.

(** ** Values held by Python dicts and BSON documents *)

(** A reading of the UTC clock. *)
Definition Time := N.

Inductive value :=
| VNone
| VBool (b : bool)
| VInt (z : Z)
| VFloat (q : Q)
| VStr (s : string)
| VList (l : list value)
| VDict (d : gmap string value)
| VDatetime (t : Time)
    (** a [datetime] object *)
| VIsoText (t : Time)
    (** the text [t.isoformat()]; kept symbolic, its characters are never
        inspected by the handlers *)
| VObjectId (hex : string)
    (** a [bson.ObjectId], held as the lower-case hex text of its bytes *).

Abbreviation doc := (gmap string value).

(** Python truthiness ([if x:], [x or y], [not x]). *)
Definition truthy (v : value) : bool :=
  match v with
  | VNone => false
  | VBool b => b
  | VInt z => negb (z =? 0)%Z
  | VFloat q => negb (Qeq_bool q 0)
  | VStr s => negb (String.eqb s "")
  | VList l => match l with [] => false | _ => true end
  | VDict d => negb (bool_decide (d = ∅))
  | VDatetime _ | VIsoText _ | VObjectId _ => true
  end.

(** ** Exceptions and outcomes *)

Inductive exc :=
| AttributeError
| TypeError
| InvalidId
| ValidationError
| HTTPException (status_code : nat) (detail : string)
| DuplicateKeyError
| NotModelled.
    (** raised by the model where it leaves a Python conversion out *)

Inductive res (A : Type) :=
| Ret (a : A)
| Raise (e : exc).
Arguments Ret {A} a.
Arguments Raise {A} e.

#[global] Instance res_ret : MRet res := λ A a, Ret a.
#[global] Instance res_fmap : FMap res := λ A B f m,
  match m with
  | Ret a => Ret (f a)
  | Raise e => Raise e
  end.
#[global] Instance res_bind : MBind res := λ A B k m,
  match m with
  | Ret a => k a
  | Raise e => Raise e
  end.

Fixpoint mapM {A B} (f : A → res B) (l : list A) : res (list B) :=
  match l with
  | [] => Ret []
  | a :: l' => b ← f a; bs ← mapM f l'; Ret (b :: bs)
  end.

(** ** Text operations *)

(** [str.isspace] on the ASCII range: TAB..CR, FS..US and the space. *)
Definition is_space (c : ascii) : bool :=
  let n := N_of_ascii c in
  ((9 <=? n) && (n <=? 13)) || ((28 <=? n) && (n <=? 32)).

Definition lower_char (c : ascii) : ascii :=
  let n := N_of_ascii c in
  if (65 <=? n) && (n <=? 90) then ascii_of_N (n + 32) else c.

(** [s.lower()] *)
Fixpoint lower (s : string) : string :=
  match s with
  | EmptyString => EmptyString
  | String c s' => String (lower_char c) (lower s')
  end.

(** The scan of [s.split()]: [cur] is the token read so far, reversed. *)
Fixpoint split_go (s : string) (cur : list ascii) : list string :=
  let flush rest :=
    match cur with
    | [] => rest
    | _ => string_of_list_ascii (rev cur) :: rest
    end in
  match s with
  | EmptyString => flush []
  | String c s' =>
      if is_space c then flush (split_go s' []) else split_go s' (c :: cur)
  end.

(** [s.split()]: the maximal runs of non-space characters. *)
Definition split (s : string) : list string := split_go s [].

(** [sep.join(l)] *)
Fixpoint join (sep : string) (l : list string) : string :=
  match l with
  | [] => ""
  | [x] => x
  | x :: l' => x ++ sep ++ join sep l'
  end.

(** ** [bson.ObjectId] *)

Definition hex_val (c : ascii) : option N :=
  let n := N_of_ascii c in
  if (48 <=? n) && (n <=? 57) then Some (n - 48)
  else if (97 <=? n) && (n <=? 102) then Some (n - 87)
  else if (65 <=? n) && (n <=? 70) then Some (n - 55)
  else None.

Definition hex_char (d : N) : ascii :=
  if d <? 10 then ascii_of_N (48 + d) else ascii_of_N (87 + d).

(** [Py_ISSPACE]: the ASCII white space that [bytes.fromhex] skips. *)
Definition is_ascii_space (c : ascii) : bool :=
  let n := N_of_ascii c in
  ((9 <=? n) && (n <=? 13)) || (n =? 32).

(** [bytes.fromhex(s)], the result held as lower-case hex text: white space
    is skipped between bytes, each byte is two hex digits. *)
Fixpoint fromhex (s : string) : option string :=
  match s with
  | EmptyString => Some EmptyString
  | String c s' =>
      if is_ascii_space c then fromhex s'
      else
        match s' with
        | EmptyString => None
        | String c' s'' =>
            match hex_val c, hex_val c', fromhex s'' with
            | Some h, Some l, Some r =>
                Some (String (hex_char h) (String (hex_char l) r))
            | _, _, _ => None
            end
        end
  end.

(** [ObjectId(oid)] for a [str] argument: 24 characters that [fromhex]
    accepts, [InvalidId] otherwise. *)
Definition ObjectId (oid : string) : res string :=
  if (String.length oid =? 24)%nat then
    match fromhex oid with
    | Some b => Ret b
    | None => Raise InvalidId
    end
  else Raise InvalidId.

(** The 24 hex digits of the identifier the store's generator produces from
    its counter. *)
Fixpoint hex_digits (k : nat) (n : N) (acc : string) : string :=
  match k with
  | O => acc
  | S k' => hex_digits k' (n / 16) (String (hex_char (n mod 16)) acc)
  end.

Definition oid_of_counter (n : N) : string := hex_digits 24 n "".

(** ** The document store

    The service keeps every document in the one collection ["project"];
    [docs] lists it in insertion order and [next_oid] is the counter of the
    identifier generator. *)

Record Store := {
  docs : list doc;
  next_oid : N;
}.

Definition empty_store : Store := {| docs := []; next_oid := 0 |}.

(** The document has [_id] equal to the ObjectId [h]. *)
Definition has_id (h : string) (d : doc) : bool :=
  match d !! "_id" with
  | Some (VObjectId h') => String.eqb h h'
  | _ => false
  end.

(** [db["project"].find_one({"_id": h})] *)
Definition find_one (h : string) (s : Store) : option doc :=
  List.find (has_id h) (docs s).

(** [db["project"].insert_one(d)] for a document without an [_id] of its
    own: the generator's next identifier is added; the unique index on
    [_id] refuses a document whose identifier is already stored. *)
Definition insert_one (d : doc) (s : Store) : res string * Store :=
  let h := oid_of_counter (next_oid s) in
  if existsb (has_id h) (docs s) then (Raise DuplicateKeyError, s)
  else (Ret h, {| docs := docs s ++ [<["_id" := VObjectId h]> d];
                  next_oid := next_oid s + 1 |}).

(** The documents after [update_one({"_id": h}, {"$set": sets})]: the
    fields of [sets] replace those of the first document that matches. *)
Fixpoint update_one_set (h : string) (sets : doc) (l : list doc) : list doc :=
  match l with
  | [] => []
  | d :: l' =>
      if has_id h d then (sets ∪ d) :: l' else d :: update_one_set h sets l'
  end.

Definition update_one (h : string) (sets : doc) (s : Store) : Store :=
  {| docs := update_one_set h sets (docs s); next_oid := next_oid s |}.

(** The two query forms [list_projects] builds: [{k: s}] and
    [{k: {"$in": l}}]. *)
Inductive cond :=
| Eq (s : string)
| In_ (l : list string).

(** Mongo's equality on a field: the field is the text itself, or an array
    that has it as an element. *)
Definition field_is (s : string) (v : option value) : bool :=
  match v with
  | Some (VStr s') => String.eqb s s'
  | Some (VList l) =>
      existsb (λ x, match x with VStr s' => String.eqb s s' | _ => false end) l
  | _ => false
  end.

Definition holds (c : cond) (v : option value) : bool :=
  match c with
  | Eq s => field_is s v
  | In_ l => existsb (λ s, field_is s v) l
  end.

(** A document matches a filter when every condition of it holds. *)
Definition matches (filt : gmap string cond) (d : doc) : bool :=
  bool_decide (map_Forall (λ k c, holds c (d !! k) = true) filt).

(** [db["project"].find(filt)] *)
Definition find (filt : gmap string cond) (s : Store) : list doc :=
  List.filter (matches filt) (docs s).

(** Modelled from the spec: [create_document] of [database.py], which is not
    among the sources. The store "supports insert" and "assigns the id at
    creation", "all other fields stored verbatim": the document is inserted
    as it is and the text of the assigned identifier is returned. *)
Definition create_document (data : doc) (s : Store) : res string * Store :=
  insert_one data s.

(** Modelled from the spec: [get_documents] of [database.py], which is not
    among the sources: the store's "filtered find", all matches, no limit. *)
Definition get_documents (filt : gmap string cond) (s : Store) : list doc :=
  find filt s.

(** ** The pydantic models *)

Record Pricing := {
  type : string;
  amount : option Q;
  currency : string;
}.

Record Links := {
  external_url : option string;
  github_url : option string;
  embed_url : option string;
  zip_url : option string;
}.

Record AIInsights := {
  summary : option string;
  pitch : option string;
  landing_copy : option string;
  deck_outline : option (list string);
  tags : list string;
  readiness_score : option Q;
  market_fit_score : option Q;
  suggestions : option (list string);
}.

Record ProjectIn := {
  name : string;
  description : option string;
  tech_stack : list string;
  category : option string;
  pricing : option Pricing;
  status : string;
  links : option Links;
  thumbnails : list string;
}.

(** [class Project(ProjectIn)]: the inherited fields are [project_in]. *)
Record Project := {
  project_in :> ProjectIn;
  id : string;
  created_at : Time;
  updated_at : Time;
  ai : AIInsights;
  views : Z;
  saves : Z;
  watchers : Z;
}.

(** [AIInsights()] *)
Definition AIInsights_default : AIInsights :=
  {| summary := None; pitch := None; landing_copy := None;
     deck_outline := None; tags := []; readiness_score := None;
     market_fit_score := None; suggestions := None |}.

(** *** [model_dump] *)

Definition dump_opt {A} (f : A → value) (o : option A) : value :=
  match o with
  | Some a => f a
  | None => VNone
  end.

Definition dump_strs (l : list string) : value := VList (VStr <$> l).

Definition Pricing_dump (p : Pricing) : value :=
  VDict (<["type" := VStr (type p)]>
        (<["amount" := dump_opt VFloat (amount p)]>
        (<["currency" := VStr (currency p)]> ∅))).

Definition Links_dump (l : Links) : value :=
  VDict (<["external_url" := dump_opt VStr (external_url l)]>
        (<["github_url" := dump_opt VStr (github_url l)]>
        (<["embed_url" := dump_opt VStr (embed_url l)]>
        (<["zip_url" := dump_opt VStr (zip_url l)]> ∅)))).

Definition AIInsights_dump (a : AIInsights) : value :=
  VDict (<["summary" := dump_opt VStr (summary a)]>
        (<["pitch" := dump_opt VStr (pitch a)]>
        (<["landing_copy" := dump_opt VStr (landing_copy a)]>
        (<["deck_outline" := dump_opt dump_strs (deck_outline a)]>
        (<["tags" := dump_strs (tags a)]>
        (<["readiness_score" := dump_opt VFloat (readiness_score a)]>
        (<["market_fit_score" := dump_opt VFloat (market_fit_score a)]>
        (<["suggestions" := dump_opt dump_strs (suggestions a)]> ∅)))))))).

Definition ProjectIn_dump (p : ProjectIn) : doc :=
  <["name" := VStr (name p)]>
  (<["description" := dump_opt VStr (description p)]>
  (<["tech_stack" := dump_strs (tech_stack p)]>
  (<["category" := dump_opt VStr (category p)]>
  (<["pricing" := dump_opt Pricing_dump (pricing p)]>
  (<["status" := VStr (status p)]>
  (<["links" := dump_opt Links_dump (links p)]>
  (<["thumbnails" := dump_strs (thumbnails p)]> ∅))))))).

(** *** Validation

    The fields are read by their declared types; every failure is the one
    [ValidationError] pydantic raises for the model. The reading is strict
    on the JSON type of a value: of pydantic's conversions only the one
    from an integer to a float is modelled. *)

(** [k: str], with the declared default when the key is absent ([None] for
    a required field). *)
Definition get_str (k : string) (dflt : option string) (d : doc) : res string :=
  match d !! k, dflt with
  | Some (VStr s), _ => Ret s
  | None, Some s => Ret s
  | _, _ => Raise ValidationError
  end.

(** [k: Optional[str] = None] *)
Definition get_opt_str (k : string) (d : doc) : res (option string) :=
  match d !! k with
  | None | Some VNone => Ret None
  | Some (VStr s) => Ret (Some s)
  | _ => Raise ValidationError
  end.

Definition as_str (v : value) : res string :=
  match v with
  | VStr s => Ret s
  | _ => Raise ValidationError
  end.

(** [k: List[str] = []] *)
Definition get_strs (k : string) (d : doc) : res (list string) :=
  match d !! k with
  | None => Ret []
  | Some (VList l) => mapM as_str l
  | _ => Raise ValidationError
  end.

(** [k: Optional[List[str]] = None] *)
Definition get_opt_strs (k : string) (d : doc) : res (option (list string)) :=
  match d !! k with
  | None | Some VNone => Ret None
  | Some (VList l) => l' ← mapM as_str l; Ret (Some l')
  | _ => Raise ValidationError
  end.

(** [k: Optional[float] = Field(None, ...)] with the bounds check [ok]; an
    integer is taken as the float of the same value. *)
Definition get_opt_float (ok : Q → bool) (k : string) (d : doc)
  : res (option Q) :=
  let check q := if ok q then Ret (Some q) else Raise ValidationError in
  match d !! k with
  | None | Some VNone => Ret None
  | Some (VFloat q) => check q
  | Some (VInt z) => check (inject_Z z)
  | _ => Raise ValidationError
  end.

(** [k: int = 0] *)
Definition get_int (k : string) (d : doc) : res Z :=
  match d !! k with
  | None => Ret 0%Z
  | Some (VInt z) => Ret z
  | _ => Raise ValidationError
  end.

(** [k: datetime]: a [datetime] object or its ISO-8601 text. *)
Definition get_datetime (k : string) (d : doc) : res Time :=
  match d !! k with
  | Some (VDatetime t) | Some (VIsoText t) => Ret t
  | _ => Raise ValidationError
  end.

(** [k: Optional[M] = None] for a nested model [M]. *)
Definition get_opt_model {M} (validate : value → res M) (k : string) (d : doc)
  : res (option M) :=
  match d !! k with
  | None | Some VNone => Ret None
  | Some v => m ← validate v; Ret (Some m)
  end.

(** [ge=0] *)
Definition ge0 (q : Q) : bool := Qle_bool 0 q.

(** [ge=0, le=100] *)
Definition ge0_le100 (q : Q) : bool := Qle_bool 0 q && Qle_bool q 100.

Definition Pricing_validate (v : value) : res Pricing :=
  match v with
  | VDict d =>
      ty ← get_str "type" None d;
      am ← get_opt_float ge0 "amount" d;
      cu ← get_str "currency" (Some "USD") d;
      Ret {| type := ty; amount := am; currency := cu |}
  | _ => Raise ValidationError
  end.

Definition AIInsights_validate (v : value) : res AIInsights :=
  match v with
  | VDict d =>
      su ← get_opt_str "summary" d;
      pi ← get_opt_str "pitch" d;
      la ← get_opt_str "landing_copy" d;
      de ← get_opt_strs "deck_outline" d;
      ta ← get_strs "tags" d;
      re ← get_opt_float ge0_le100 "readiness_score" d;
      ma ← get_opt_float ge0_le100 "market_fit_score" d;
      sg ← get_opt_strs "suggestions" d;
      Ret {| summary := su; pitch := pi; landing_copy := la;
             deck_outline := de; tags := ta; readiness_score := re;
             market_fit_score := ma; suggestions := sg |}
  | _ => Raise ValidationError
  end.

Section Service.

(** pydantic's [HttpUrl] check of a text, a library function the service
    is parameterised by. *)
Variable HttpUrl_valid : string → bool.

(** [k: Optional[HttpUrl] = None] *)
Definition get_opt_url (k : string) (d : doc) : res (option string) :=
  match d !! k with
  | None | Some VNone => Ret None
  | Some (VStr u) => if HttpUrl_valid u then Ret (Some u) else Raise ValidationError
  | _ => Raise ValidationError
  end.

Definition Links_validate (v : value) : res Links :=
  match v with
  | VDict d =>
      ex ← get_opt_url "external_url" d;
      gi ← get_opt_url "github_url" d;
      em ← get_opt_url "embed_url" d;
      zi ← get_opt_url "zip_url" d;
      Ret {| external_url := ex; github_url := gi; embed_url := em;
             zip_url := zi |}
  | _ => Raise ValidationError
  end.

Definition ProjectIn_validate (d : doc) : res ProjectIn :=
  na ← get_str "name" None d;
  de ← get_opt_str "description" d;
  te ← get_strs "tech_stack" d;
  ca ← get_opt_str "category" d;
  pr ← get_opt_model Pricing_validate "pricing" d;
  st ← get_str "status" (Some "MVP") d;
  li ← get_opt_model Links_validate "links" d;
  th ← get_strs "thumbnails" d;
  Ret {| name := na; description := de; tech_stack := te; category := ca;
         pricing := pr; status := st; links := li; thumbnails := th |}.

(** The model [Project] built from the keyword arguments [d]. *)
Definition Project_validate (d : doc) : res Project :=
  base ← ProjectIn_validate d;
  i ← get_str "id" None d;
  cr ← get_datetime "created_at" d;
  up ← get_datetime "updated_at" d;
  a ← match d !! "ai" with
      | None => Ret AIInsights_default
      | Some v => AIInsights_validate v
      end;
  vi ← get_int "views" d;
  sa ← get_int "saves" d;
  wa ← get_int "watchers" d;
  Ret {| project_in := base; id := i; created_at := cr; updated_at := up;
         ai := a; views := vi; saves := sa; watchers := wa |}.

(** ** The handlers of [main.py] *)

(** [str(v)], for the values whose text the model can write. *)
Definition py_str (v : value) : res string :=
  match v with
  | VStr s => Ret s
  | VObjectId h => Ret h
  | VNone => Ret "None"
  | VBool true => Ret "True"
  | VBool false => Ret "False"
  | _ => Raise NotModelled
  end.

(** [d[k] = d[k].isoformat()] when [d.get(k)] is a [datetime]. *)
Definition isoformat_field (k : string) (d : doc) : doc :=
  match d !! k with
  | Some (VDatetime t) => <[k := VIsoText t]> d
  | _ => d
  end.

(** [_serialize(doc)]; [find_one] hands it [None] when nothing matched, on
    which [dict(doc)] raises. *)
Definition _serialize (found : option doc) : res doc :=
  match found with
  | None => Raise TypeError
  | Some d =>
      d ← match d !! "_id" with
          | Some v =>
              if truthy v
              then i ← py_str v; Ret (<["id" := VStr i]> (delete "_id" d))
              else Ret d
          | None => Ret d
          end;
      Ret (isoformat_field "updated_at" (isoformat_field "created_at" d))
  end.

(** [read_root] and [hello] *)
Definition read_root : doc := {["message" := VStr "Vibe Station API ready"]}.
Definition hello : doc := {["message" := VStr "Hello from the backend API!"]}.

(** The two settings [test_database] reads with [os.getenv]. *)
Record Env := {
  DATABASE_URL : option string;
  DATABASE_NAME : option string;
}.

Definition getenv_set (o : option string) : value :=
  match o with
  | Some v => if truthy (VStr v) then VStr "✅ Set" else VStr "❌ Not Set"
  | None => VStr "❌ Not Set"
  end.

(** [db.list_collection_names()]: the collection exists once it holds a
    document. *)
Definition list_collection_names (s : Store) : list string :=
  match docs s with
  | [] => []
  | _ => ["project"]
  end.

(** [test_database], for a live store handle. *)
Definition test_database (env : Env) (s : Store) : doc :=
  <["backend" := VStr "✅ Running"]>
  (<["database" := VStr "✅ Connected & Working"]>
  (<["database_url" := getenv_set (DATABASE_URL env)]>
  (<["database_name" := getenv_set (DATABASE_NAME env)]>
  (<["connection_status" := VStr "Connected"]>
  (<["collections" := dump_strs (take 10 (list_collection_names s))]> ∅))))).

(** [create_project(payload)]; [now] is what [datetime.now] reads. *)
Definition create_project (payload : ProjectIn) (now : Time) (s : Store)
  : res Project * Store :=
  let base := ProjectIn_dump payload in
  let base :=
    <["ai" := AIInsights_dump AIInsights_default]>
    (<["views" := VInt 0]>
    (<["saves" := VInt 0]>
    (<["watchers" := VInt 0]>
    (<["created_at" := VDatetime now]>
    (<["updated_at" := VDatetime now]> base))))) in
  match create_document base s with
  | (Raise e, s') => (Raise e, s')
  | (Ret new_id, s') =>
      (oid ← ObjectId new_id;
       d ← _serialize (find_one oid s');
       Project_validate d, s')
  end.

(** [list_projects(category, tech)] *)
Definition list_projects (category tech : option string) (s : Store)
  : res (list Project) :=
  let filt : gmap string cond := ∅ in
  let filt :=
    match category with
    | Some c => if truthy (VStr c) then <["category" := Eq c]> filt else filt
    | None => filt
    end in
  let filt :=
    match tech with
    | Some t => if truthy (VStr t) then <["tech_stack" := In_ [t]]> filt else filt
    | None => filt
    end in
  mapM (λ d, d' ← _serialize (Some d); Project_validate d')
       (get_documents filt s).

(** The two [HTTPException]s of the handlers and the failure of the
    request's validation, under the names of the error taxonomy. *)
Definition InvalidIdentifier : exc := HTTPException 400 "Invalid project id".
Definition NotFound : exc := HTTPException 404 "Project not found".
Definition SchemaViolation : exc := HTTPException 422 "Unprocessable Entity".

(** [get_project(project_id)] *)
Definition get_project (project_id : string) (s : Store) : res Project :=
  match ObjectId project_id with
  | Raise _ => Raise InvalidIdentifier
  | Ret oid =>
      match find_one oid s with
      | Some d =>
          if truthy (VDict d) then d' ← _serialize (Some d); Project_validate d'
          else Raise NotFound
      | None => Raise NotFound
      end
  end.

(** [d.get(k, dflt)] *)
Definition get_default (k : string) (dflt : value) (d : doc) : value :=
  default dflt (d !! k).

(** [x or y] *)
Definition py_or (x y : value) : value := if truthy x then x else y.

(** [sep.join(v)] for a list of texts. *)
Definition py_join (sep : string) (v : value) : res string :=
  match v with
  | VList l =>
      l' ← mapM (λ x, match x with VStr s => Ret s | _ => Raise TypeError end) l;
      Ret (join sep l')
  | VNone | VBool _ | VInt _ | VFloat _ | VDatetime _ | VObjectId _ =>
      Raise TypeError
  | VStr _ | VIsoText _ | VDict _ => Raise NotModelled
  end.

(** [v.split()] *)
Definition py_split (v : value) : res (list string) :=
  match v with
  | VStr s => Ret (split s)
  | VIsoText _ => Raise NotModelled
  | _ => Raise AttributeError
  end.

(** [l + v] for a list [l] *)
Definition py_list_add (l : list value) (v : value) : res (list value) :=
  match v with
  | VList l' => Ret (l ++ l')%list
  | _ => Raise TypeError
  end.

(** The dash of the summary line, U+2014 in UTF-8. *)
Definition em_dash : string := String "226" (String "128" (String "148" "")).

Definition deck_outline_fixed : list string :=
  ["Problem"; "Solution"; "Product Demo"; "Market"; "Business Model"; "Roadmap"].

Definition suggestions_fixed : list string :=
  ["Add a quick demo video"; "Publish a public roadmap";
   "Collect early user feedback"].

(** The dict [ai_block] that [bootstrap_ai] builds from the document. *)
Definition ai_block (d : doc) : res doc :=
  let name := get_default "name" (VStr "Your MVP") d in
  let description :=
    py_or (get_default "description" VNone d)
          (VStr "An innovative micro-app that solves a focused problem.") in
  joined ← py_join ", " (get_default "tech_stack" (VList []) d);
  let techs := if truthy (VStr joined) then joined else "modern web stack" in
  name ← py_str name;
  description ← py_str description;
  toks ← py_split (get_default "category" (VStr "") d);
  tags ← py_list_add (VStr ∘ lower <$> toks) (get_default "tech_stack" (VList []) d);
  Ret (<["summary" := VStr (name ++ " " ++ em_dash ++ " " ++ description)]>
      (<["pitch" := VStr (name ++ " helps teams move faster by automating key workflows using " ++ techs ++ ".")]>
      (<["landing_copy" := VStr ("Ship faster with " ++ name ++ ". Built with " ++ techs ++ ".")]>
      (<["deck_outline" := dump_strs deck_outline_fixed]>
      (<["tags" := VList tags]>
      (<["readiness_score" := VFloat 60]>
      (<["market_fit_score" := VFloat 55]>
      (<["suggestions" := dump_strs suggestions_fixed]> ∅)))))))).

(** [bootstrap_ai(project_id)]; [now] is what [datetime.now] reads. *)
Definition bootstrap_ai (project_id : string) (now : Time) (s : Store)
  : res doc * Store :=
  match ObjectId project_id with
  | Raise e => (Raise e, s)
  | Ret oid =>
      match find_one oid s with
      | None => (Raise NotFound, s)
      | Some d =>
          if negb (truthy (VDict d)) then (Raise NotFound, s)
          else
            match ai_block d with
            | Raise e => (Raise e, s)
            | Ret blk =>
                let s' :=
                  update_one oid
                    (<["ai" := VDict blk]> (<["updated_at" := VDatetime now]> ∅))
                    s in
                (_serialize (find_one oid s'), s')
            end
      end
  end.

(** ** The routes

    FastAPI validates the body of [POST /api/projects] into a [ProjectIn]
    before it calls the handler, and answers 422 when that fails. *)
Definition post_projects (body : doc) (now : Time) (s : Store)
  : res Project * Store :=
  match ProjectIn_validate body with
  | Ret payload => create_project payload now s
  | Raise _ => (Raise SchemaViolation, s)
  end.

Inductive request :=
| GetRoot
| GetHello
| GetTest
| PostProjects (body : doc)
| GetProjects (category tech : option string)
| GetProject (project_id : string)
| PostBootstrapAI (project_id : string).

Inductive reply :=
| Json (d : doc)
| OneProject (p : Project)
| ManyProjects (l : list Project).

(** One request served: the reply, or the exception that ends it, and the
    store it leaves. *)
Definition serve (env : Env) (now : Time) (r : request) (s : Store)
  : res reply * Store :=
  match r with
  | GetRoot => (Ret (Json read_root), s)
  | GetHello => (Ret (Json hello), s)
  | GetTest => (Ret (Json (test_database env s)), s)
  | PostProjects body =>
      let '(p, s') := post_projects body now s in (OneProject <$> p, s')
  | GetProjects category tech =>
      (ManyProjects <$> list_projects category tech s, s)
  | GetProject project_id => (OneProject <$> get_project project_id s, s)
  | PostBootstrapAI project_id =>
      let '(d, s') := bootstrap_ai project_id now s in (Json <$> d, s')
  end.

End Service.

(** ** The typed view of the store

    What [create_project] stores for a [Project], and what [_serialize]
    makes of it. *)

Definition stored_doc (p : Project) : doc :=
  <["_id" := VObjectId (id p)]>
  (<["ai" := AIInsights_dump (ai p)]>
  (<["views" := VInt (views p)]>
  (<["saves" := VInt (saves p)]>
  (<["watchers" := VInt (watchers p)]>
  (<["created_at" := VDatetime (created_at p)]>
  (<["updated_at" := VDatetime (updated_at p)]> (ProjectIn_dump p))))))).

Definition wire_doc (p : Project) : doc :=
  <["id" := VStr (id p)]>
  (<["ai" := AIInsights_dump (ai p)]>
  (<["views" := VInt (views p)]>
  (<["saves" := VInt (saves p)]>
  (<["watchers" := VInt (watchers p)]>
  (<["created_at" := VIsoText (created_at p)]>
  (<["updated_at" := VIsoText (updated_at p)]> (ProjectIn_dump p))))))).

(** The constraints the models declare on their fields. *)
Definition opt_ok {A} (ok : A → bool) (o : option A) : Prop :=
  match o with
  | Some a => ok a = true
  | None => True
  end.

Definition Pricing_ok (p : Pricing) : Prop := opt_ok ge0 (amount p).

Definition AIInsights_ok (a : AIInsights) : Prop :=
  opt_ok ge0_le100 (readiness_score a) ∧ opt_ok ge0_le100 (market_fit_score a).

Definition Links_ok (valid : string → bool) (l : Links) : Prop :=
  opt_ok valid (external_url l) ∧ opt_ok valid (github_url l) ∧
  opt_ok valid (embed_url l) ∧ opt_ok valid (zip_url l).

Definition ProjectIn_ok (valid : string → bool) (p : ProjectIn) : Prop :=
  from_option Pricing_ok True (pricing p) ∧
  from_option (Links_ok valid) True (links p).

Definition Project_ok (valid : string → bool) (p : Project) : Prop :=
  ProjectIn_ok valid p ∧ AIInsights_ok (ai p).

(** The store holds exactly the Projects [ps]: each under an identifier the
    generator has handed out, no identifier twice. *)
Record store_inv (valid : string → bool) (ps : list Project) (s : Store)
  : Prop := {
  inv_docs : docs s = stored_doc <$> ps;
  inv_ok : Forall (Project_ok valid) ps;
  inv_ids : Forall (λ p, ∃ n, n < next_oid s ∧ id p = oid_of_counter n) ps;
  inv_nodup : NoDup (id <$> ps);
  inv_bound : next_oid s ≤ 16 ^ 24;
}.

(** The [AIInsights] that [bootstrap_ai] derives for a Project whose
    category is the text [c]. *)
Definition techs_of (p : ProjectIn) : string :=
  let joined := join ", " (tech_stack p) in
  if truthy (VStr joined) then joined else "modern web stack".

Definition bootstrapped_ai (p : ProjectIn) (c : string) : AIInsights :=
  {| summary :=
       Some (name p ++ " " ++ em_dash ++ " " ++
             match description p with
             | Some d =>
                 if truthy (VStr d) then d
                 else "An innovative micro-app that solves a focused problem."
             | None => "An innovative micro-app that solves a focused problem."
             end);
     pitch :=
       Some (name p ++ " helps teams move faster by automating key workflows using "
             ++ techs_of p ++ ".");
     landing_copy :=
       Some ("Ship faster with " ++ name p ++ ". Built with " ++ techs_of p ++ ".");
     deck_outline := Some deck_outline_fixed;
     tags := (lower <$> split c) ++ tech_stack p;
     readiness_score := Some 60%Q;
     market_fit_score := Some 55%Q;
     suggestions := Some suggestions_fixed |}.

(** The Project [p] after a bootstrap at clock reading [now]. *)
Definition bootstrapped (p : Project) (c : string) (now : Time) : Project :=
  {| project_in := p; id := id p; created_at := created_at p;
     updated_at := now; ai := bootstrapped_ai p c;
     views := views p; saves := saves p; watchers := watchers p |}.

(** Texts made of pairs of lower-case hex digits. *)
Inductive hex_pairs : string → Prop :=
| hex_pairs_nil : hex_pairs ""
| hex_pairs_cons h l s :
    h < 16 → l < 16 → hex_pairs s →
    hex_pairs (String (hex_char h) (String (hex_char l) s)).

(** The number a hex text denotes, read from the left. *)
Fixpoint hex_num (s : string) (acc : N) : option N :=
  match s with
  | EmptyString => Some acc
  | String c s' =>
      match hex_val c with
      | Some d => hex_num s' (16 * acc + d)
      | None => None
      end
  end.

(** The Projects after the first one with identifier [h] is replaced by
    [p']. *)
Fixpoint replace_first (h : string) (p' : Project) (ps : list Project)
  : list Project :=
  match ps with
  | [] => []
  | p :: ps' =>
      if String.eqb h (id p) then p' :: ps' else p :: replace_first h p' ps'
  end.

(** The first stored Project with identifier [h]. *)
Definition lookup_project (h : string) (ps : list Project) : option Project :=
  List.find (λ p, String.eqb h (id p)) ps.

(** What the filters of [list] select, in the words of the specification:
    the category equals [c], the tech stack contains [t], both when both
    are given. *)
Definition selected (category_filter tech_filter : option string) (p : Project)
  : bool :=
  match category_filter with
  | Some c => bool_decide (category p = Some c)
  | None => true
  end &&
  match tech_filter with
  | Some t => bool_decide (t ∈ tech_stack p)
  | None => true
  end.

(** The create inputs of the schema-violation claims: a negative
    [pricing.amount], a [links] text that is not a well-formed URL. *)
Definition amount_negative (body : doc) : Prop :=
  ∃ pr, body !! "pricing" = Some (VDict pr) ∧
    ((∃ q, pr !! "amount" = Some (VFloat q) ∧ (q < 0)%Q) ∨
     (∃ z, pr !! "amount" = Some (VInt z) ∧ (z < 0)%Z)).

Definition link_malformed (valid : string → bool) (body : doc) : Prop :=
  ∃ l k u, body !! "links" = Some (VDict l) ∧
    k ∈ ["external_url"; "github_url"; "embed_url"; "zip_url"] ∧
    l !! k = Some (VStr u) ∧ valid u = false.

(** The Project that [create_project] stores for a validated payload,
    under the identifier [h] at clock reading [now]. *)
Definition created (payload : ProjectIn) (h : string) (now : Time) : Project :=
  {| project_in := payload; id := h; created_at := now; updated_at := now;
     ai := AIInsights_default; views := 0; saves := 0; watchers := 0 |}.

(** The payload of a create request that sets only [name]. *)
Definition only_name (n : string) : ProjectIn :=
  {| name := n; description := None; tech_stack := []; category := None;
     pricing := None; status := "MVP"; links := None; thumbnails := [] |}.

(** The generator's next identifier is not stored yet. *)
Definition fresh (s : Store) : Prop :=
  existsb (has_id (oid_of_counter (next_oid s))) (docs s) = false.

(** The frame of a request, read on the documents: every document of [s]
    is still at its place in [s'] and keeps its three counters. *)
Definition counters_kept (s s' : Store) : Prop :=
  ∀ i d, docs s !! i = Some d →
    ∃ d', docs s' !! i = Some d' ∧
      d' !! "views" = d !! "views" ∧ d' !! "saves" = d !! "saves" ∧
      d' !! "watchers" = d !! "watchers".

(** No document is added or removed, and every document keeps each field
    other than [ai] and [updated_at]. *)
Definition only_ai_changed (s s' : Store) : Prop :=
  length (docs s') = length (docs s) ∧
  ∀ i d, docs s !! i = Some d →
    ∃ d', docs s' !! i = Some d' ∧
      ∀ k, k ≠ "ai" → k ≠ "updated_at" → d' !! k = d !! k.

(** ** Sample data for the examples *)

(** A sample [HttpUrl] check: the text starts with one of the two
    schemes. *)
Definition has_http_scheme (u : string) : bool :=
  String.prefix "http://" u || String.prefix "https://" u.

Definition body_foo : doc := {["name" := VStr "Foo"]}.

Definition body_go : doc :=
  <["name" := VStr "Foo"]>
  (<["category" := VStr "Dev Tools"]>
  (<["tech_stack" := VList [VStr "Go"; VStr "React"]]> ∅)).

Definition project_foo : Project :=
  created (only_name "Foo") "000000000000000000000000" 5.

Definition project_go : Project :=
  created {| name := "Foo"; description := None; tech_stack := ["Go"; "React"];
             category := Some "Dev Tools"; pricing := None; status := "MVP";
             links := None; thumbnails := [] |}
          "000000000000000000000001" 6.

(** The store after [body_foo] is posted at clock reading 5 and [body_go]
    at 6: a Project without a category and one with. *)
Definition store_foo : Store :=
  (post_projects has_http_scheme body_foo 5 empty_store).2.

Definition store_two : Store :=
  (post_projects has_http_scheme body_go 6 store_foo).2.

Definition body_negative_amount : doc :=
  <["pricing" := VDict (<["type" := VStr "one-time"]> {["amount" := VInt (-1)]})]>
  body_foo.

Definition body_bad_link : doc :=
  <["links" := VDict {["external_url" := VStr "not-a-url"]}]> body_foo.

(** The stores the service can be in: the empty one, and the one any
    request leaves. *)
Inductive reachable (valid : string → bool) (env : Env) : Store → Prop :=
| reachable_empty : reachable valid env empty_store
| reachable_serve now rq s :
    reachable valid env s → reachable valid env (serve valid env now rq s).2.


(** ** [test_database] over any state of the store handle

    [db] is [None] when the module has no connection; a handle has a name,
    and its [list_collection_names] returns the names or raises an exception
    of which [str] gives the message. Nothing else in the guarded block
    raises, so the outer handler is never entered. *)

Record Database := {
  db_name : string;
  db_collections : string + list string;
}.

(** [s[:n]], on the bytes of the text. *)
Definition str_take (n : nat) (s : string) : string :=
  string_of_list_ascii (take n (list_ascii_of_string s)).

Definition test_database_on (env : Env) (db : option Database) : doc :=
  let response : doc :=
    <["backend" := VStr "✅ Running"]>
    (<["database" := VStr "❌ Not Available"]>
    (<["database_url" := VNone]>
    (<["database_name" := VNone]>
    (<["connection_status" := VStr "Not Connected"]>
    (<["collections" := VList []]> ∅))))) in
  let response :=
    match db with
    | Some h =>
        let response := <["database" := VStr "✅ Available"]> response in
        let response := <["database_url" := VStr "✅ Configured"]> response in
        let response := <["database_name" := VStr (db_name h)]> response in
        let response := <["connection_status" := VStr "Connected"]> response in
        match db_collections h with
        | inr collections =>
            let response :=
              <["collections" := dump_strs (take 10 collections)]> response in
            <["database" := VStr "✅ Connected & Working"]> response
        | inl msg =>
            <["database" := VStr ("⚠️  Connected but Error: " ++ str_take 50 msg)]> response
        end
    | None => <["database" := VStr "⚠️  Available but not initialized"]> response
    end in
  let response := <["database_url" := getenv_set (DATABASE_URL env)]> response in
  <["database_name" := getenv_set (DATABASE_NAME env)]> response.

(** The handle of a live store. *)
Definition live_db (name : string) (s : Store) : Database :=
  {| db_name := name; db_collections := inr (list_collection_names s) |}.
(** * Properties *)

(** ** Identifiers *)

Lemma hex_val_hex_char d : d < 16 → hex_val (hex_char d) = Some d.
Proof.
  intros H.
  assert (Hd : d ∈ (N.of_nat <$> seq 0 16)).
  { apply list_elem_of_fmap. exists (N.to_nat d). split; [lia|].
    apply list_elem_of_In, in_seq. lia. }
  vm_compute in Hd.
  repeat (apply elem_of_cons in Hd as [-> | Hd]; [reflexivity|]).
  by apply elem_of_nil in Hd.
Qed.

Lemma hex_char_not_space d : d < 16 → is_ascii_space (hex_char d) = false.
Proof.
  intros H.
  assert (Hd : d ∈ (N.of_nat <$> seq 0 16)).
  { apply list_elem_of_fmap. exists (N.to_nat d). split; [lia|].
    apply list_elem_of_In, in_seq. lia. }
  vm_compute in Hd.
  repeat (apply elem_of_cons in Hd as [-> | Hd]; [reflexivity|]).
  by apply elem_of_nil in Hd.
Qed.

Lemma fromhex_hex_pairs s : hex_pairs s → fromhex s = Some s.
Proof.
  induction 1 as [|h l s Hh Hl _ IH]; [done|].
  cbn [fromhex]. rewrite hex_char_not_space by done.
  by rewrite !hex_val_hex_char, IH by done.
Qed.

Lemma hex_digits_pairs k n acc :
  hex_pairs acc → hex_pairs (hex_digits (2 * k) n acc).
Proof.
  revert n acc. induction k as [|k IH]; intros n acc Hacc; [done|].
  replace (2 * S k)%nat with (S (S (2 * k))) by lia. cbn [hex_digits].
  apply IH. constructor; [apply N.mod_lt; lia..|done].
Qed.

Lemma hex_digits_length k n acc :
  String.length (hex_digits k n acc) = (k + String.length acc)%nat.
Proof.
  revert n acc. induction k as [|k IH]; intros n acc; [done|].
  cbn [hex_digits]. rewrite IH. cbn. lia.
Qed.

(** The identifier the generator hands out is read back by [ObjectId] as
    it is. *)
Lemma ObjectId_oid_of_counter n :
  ObjectId (oid_of_counter n) = Ret (oid_of_counter n).
Proof.
  unfold ObjectId, oid_of_counter. rewrite hex_digits_length. cbn [Nat.eqb Nat.add String.length].
  change 24%nat with (2 * 12)%nat at 1.
  by rewrite fromhex_hex_pairs by (apply hex_digits_pairs; constructor).
Qed.

Lemma hex_num_digits k n acc a :
  hex_num (hex_digits k n acc) a = hex_num acc (a * 16 ^ N.of_nat k + n mod 16 ^ N.of_nat k).
Proof.
  revert n acc. induction k as [|k IH]; intros n acc.
  - cbn [hex_digits]. f_equal. change (N.of_nat 0) with 0. rewrite N.pow_0_r, N.mod_1_r. lia.
  - cbn [hex_digits]. rewrite IH. cbn [hex_num].
    rewrite hex_val_hex_char by (apply N.mod_lt; lia). f_equal.
    rewrite Nat2N.inj_succ, N.pow_succ_r'.
    rewrite (N.Div0.mod_mul_r n 16 (16 ^ N.of_nat k)). lia.
Qed.

Lemma oid_of_counter_inj n m :
  n < 16 ^ 24 → m < 16 ^ 24 → oid_of_counter n = oid_of_counter m → n = m.
Proof.
  intros Hn Hm Heq. apply (f_equal (λ s, hex_num s 0)) in Heq.
  unfold oid_of_counter in Heq. rewrite !hex_num_digits in Heq. cbn [hex_num] in Heq.
  change (N.of_nat 24) with 24 in Heq.
  rewrite !N.mod_small in Heq by done. injection Heq. lia.
Qed.

(** ** Models and their dumps *)

Lemma mapM_as_str l : mapM as_str (VStr <$> l) = Ret l.
Proof. induction l as [|x l IH]; [done|]. cbn. by rewrite IH. Qed.

Lemma Pricing_validate_dump p :
  Pricing_ok p → Pricing_validate (Pricing_dump p) = Ret p.
Proof.
  destruct p as [ty [q|] cu]; unfold Pricing_ok; cbn [amount opt_ok]; intros H;
    unfold Pricing_validate, Pricing_dump, get_str, get_opt_float;
    cbn [type amount currency dump_opt]; simplify_map_eq; [|done].
  by rewrite H.
Qed.

Lemma get_opt_url_dump valid k (d : doc) o :
  d !! k = Some (dump_opt VStr o) → opt_ok valid o →
  get_opt_url valid k d = Ret o.
Proof.
  intros Hk Ho. unfold get_opt_url. rewrite Hk.
  destruct o as [u|]; cbn in *; [by rewrite Ho|done].
Qed.

Lemma Links_validate_dump valid l :
  Links_ok valid l → Links_validate valid (Links_dump l) = Ret l.
Proof.
  destruct l as [ex gi em zi]. intros (H1 & H2 & H3 & H4).
  cbn [external_url github_url embed_url zip_url] in *.
  unfold Links_validate, Links_dump. cbn [external_url github_url embed_url zip_url].
  rewrite (get_opt_url_dump valid "external_url" _ ex) by (done || by simplify_map_eq).
  rewrite (get_opt_url_dump valid "github_url" _ gi) by (done || by simplify_map_eq).
  rewrite (get_opt_url_dump valid "embed_url" _ em) by (done || by simplify_map_eq).
  rewrite (get_opt_url_dump valid "zip_url" _ zi) by (done || by simplify_map_eq).
  done.
Qed.

Lemma get_opt_str_dump k (d : doc) o :
  d !! k = Some (dump_opt VStr o) → get_opt_str k d = Ret o.
Proof. intros Hk. unfold get_opt_str. rewrite Hk. by destruct o. Qed.

Lemma get_strs_dump k (d : doc) l :
  d !! k = Some (dump_strs l) → get_strs k d = Ret l.
Proof. intros Hk. unfold get_strs. rewrite Hk. apply mapM_as_str. Qed.

Lemma get_opt_strs_dump k (d : doc) o :
  d !! k = Some (dump_opt dump_strs o) → get_opt_strs k d = Ret o.
Proof.
  intros Hk. unfold get_opt_strs. rewrite Hk. destruct o as [l|]; [|done].
  cbn. by rewrite mapM_as_str.
Qed.

Lemma get_opt_float_dump ok k (d : doc) o :
  d !! k = Some (dump_opt VFloat o) → opt_ok ok o →
  get_opt_float ok k d = Ret o.
Proof.
  intros Hk Ho. unfold get_opt_float. rewrite Hk.
  destruct o as [q|]; cbn in *; [by rewrite Ho|done].
Qed.

Lemma get_str_dump k dflt (d : doc) s :
  d !! k = Some (VStr s) → get_str k dflt d = Ret s.
Proof. intros Hk. unfold get_str. by rewrite Hk. Qed.

Lemma get_int_dump k (d : doc) z :
  d !! k = Some (VInt z) → get_int k d = Ret z.
Proof. intros Hk. unfold get_int. by rewrite Hk. Qed.

Lemma get_datetime_iso k (d : doc) t :
  d !! k = Some (VIsoText t) → get_datetime k d = Ret t.
Proof. intros Hk. unfold get_datetime. by rewrite Hk. Qed.

Lemma get_opt_model_dump {M} (validate : value → res M) (dump : M → value)
    (ok : M → Prop) k (d : doc) o :
  (∀ m, dump m ≠ VNone) →
  (∀ m, ok m → validate (dump m) = Ret m) →
  d !! k = Some (dump_opt dump o) → from_option ok True o →
  get_opt_model validate k d = Ret o.
Proof.
  intros Hne Hv Hk Ho. unfold get_opt_model. rewrite Hk.
  destruct o as [m|]; cbn in *; [|done].
  specialize (Hne m). rewrite Hv by done. by destruct (dump m).
Qed.

Lemma AIInsights_validate_dump a :
  AIInsights_ok a → AIInsights_validate (AIInsights_dump a) = Ret a.
Proof.
  destruct a as [su pi la de ta re ma sg]. intros [H1 H2].
  cbn [readiness_score market_fit_score] in *.
  unfold AIInsights_validate, AIInsights_dump.
  cbn [summary pitch landing_copy deck_outline tags readiness_score
       market_fit_score suggestions].
  rewrite (get_opt_str_dump "summary" _ su) by (by simplify_map_eq).
  rewrite (get_opt_str_dump "pitch" _ pi) by (by simplify_map_eq).
  rewrite (get_opt_str_dump "landing_copy" _ la) by (by simplify_map_eq).
  rewrite (get_opt_strs_dump "deck_outline" _ de) by (by simplify_map_eq).
  rewrite (get_strs_dump "tags" _ ta) by (by simplify_map_eq).
  rewrite (get_opt_float_dump _ "readiness_score" _ re) by (done || by simplify_map_eq).
  rewrite (get_opt_float_dump _ "market_fit_score" _ ma) by (done || by simplify_map_eq).
  rewrite (get_opt_strs_dump "suggestions" _ sg) by (by simplify_map_eq).
  done.
Qed.

Lemma ProjectIn_validate_dump valid (p : ProjectIn) (d : doc) :
  ProjectIn_ok valid p →
  (∀ k v, ProjectIn_dump p !! k = Some v → d !! k = Some v) →
  ProjectIn_validate valid d = Ret p.
Proof.
  destruct p as [na de te ca pr st li th]. intros [H1 H2] Hd.
  cbn [pricing links] in *.
  unfold ProjectIn_validate.
  rewrite (get_str_dump "name" _ _ na) by (apply Hd; by simplify_map_eq).
  rewrite (get_opt_str_dump "description" _ de) by (apply Hd; by simplify_map_eq).
  rewrite (get_strs_dump "tech_stack" _ te) by (apply Hd; by simplify_map_eq).
  rewrite (get_opt_str_dump "category" _ ca) by (apply Hd; by simplify_map_eq).
  rewrite (get_opt_model_dump Pricing_validate Pricing_dump Pricing_ok "pricing" _ pr)
    by (done || apply Pricing_validate_dump || (apply Hd; by simplify_map_eq)).
  rewrite (get_str_dump "status" _ _ st) by (apply Hd; by simplify_map_eq).
  rewrite (get_opt_model_dump (Links_validate valid) Links_dump (Links_ok valid) "links" _ li)
    by (done || apply Links_validate_dump || (apply Hd; by simplify_map_eq)).
  rewrite (get_strs_dump "thumbnails" _ th) by (apply Hd; by simplify_map_eq).
  done.
Qed.

(** ** Stored documents *)

Lemma serialize_stored p : _serialize (Some (stored_doc p)) = Ret (wire_doc p).
Proof. reflexivity. Qed.

Lemma wire_doc_dump (p : Project) k v :
  ProjectIn_dump p !! k = Some v → wire_doc p !! k = Some v.
Proof.
  unfold wire_doc, ProjectIn_dump. intros H.
  repeat (rewrite lookup_insert in H; case_decide; [subst k; by simplify_map_eq|]).
  by rewrite lookup_empty in H.
Qed.

Lemma wire_doc_ai p : wire_doc p !! "ai" = Some (AIInsights_dump (ai p)).
Proof. reflexivity. Qed.

Lemma Project_validate_wire valid p :
  Project_ok valid p → Project_validate valid (wire_doc p) = Ret p.
Proof.
  intros [Hin Hai]. unfold Project_validate.
  rewrite (ProjectIn_validate_dump valid p) by (done || apply wire_doc_dump).
  rewrite wire_doc_ai, (get_str_dump "id" _ _ (id p)) by done.
  rewrite (get_datetime_iso "created_at" _ (created_at p)) by done.
  rewrite (get_datetime_iso "updated_at" _ (updated_at p)) by done.
  rewrite (get_int_dump "views" _ (views p)) by done.
  rewrite (get_int_dump "saves" _ (saves p)) by done.
  rewrite (get_int_dump "watchers" _ (watchers p)) by done.
  cbn [mbind res_bind]. rewrite AIInsights_validate_dump by done. by destruct p.
Qed.

Lemma has_id_stored h p : has_id h (stored_doc p) = String.eqb h (id p).
Proof. reflexivity. Qed.

Lemma stored_doc_truthy p : truthy (VDict (stored_doc p)) = true.
Proof.
  cbn. rewrite bool_decide_eq_false_2; [done|].
  intros H. apply (f_equal (λ d : doc, d !! "_id")) in H. by simplify_map_eq.
Qed.

(** ** The store under its typed view *)

Lemma find_stored h ps :
  List.find (has_id h) (stored_doc <$> ps) = stored_doc <$> lookup_project h ps.
Proof.
  unfold lookup_project. induction ps as [|p ps IH]; [done|].
  cbn [fmap list_fmap List.find]. fold (fmap (M:=list) stored_doc ps).
  rewrite has_id_stored. by destruct (String.eqb h (id p)).
Qed.

Lemma find_one_stored valid ps s h :
  store_inv valid ps s → find_one h s = stored_doc <$> lookup_project h ps.
Proof. intros [Hd _ _ _ _]. unfold find_one. rewrite Hd. apply find_stored. Qed.

Lemma lookup_project_Some h ps p :
  lookup_project h ps = Some p → p ∈ ps ∧ id p = h.
Proof.
  unfold lookup_project. intros H. apply find_some in H as [Hin Heq].
  apply String.eqb_eq in Heq. split; [by apply list_elem_of_In|done].
Qed.

Lemma lookup_project_NoDup ps p :
  NoDup (id <$> ps) → p ∈ ps → lookup_project (id p) ps = Some p.
Proof.
  unfold lookup_project. induction ps as [|q ps IH]; intros Hnd Hin.
  - by apply elem_of_nil in Hin.
  - cbn [List.find]. rewrite fmap_cons in Hnd. apply NoDup_cons in Hnd as [Hq Hnd].
    destruct (String.eqb (id p) (id q)) eqn:E.
    + apply String.eqb_eq in E. apply elem_of_cons in Hin as [->|Hin]; [done|].
      exfalso. apply Hq. rewrite <- E. by apply list_elem_of_fmap_2.
    + apply elem_of_cons in Hin as [->|Hin]; [by rewrite String.eqb_refl in E|].
      by apply IH.
Qed.

Lemma serialize_validate_stored valid p :
  Project_ok valid p →
  (_serialize (Some (stored_doc p)) ≫= Project_validate valid) = Ret p.
Proof. intros H. rewrite serialize_stored. cbn [mbind res_bind]. by apply Project_validate_wire. Qed.

Lemma mapM_stored valid ps :
  Forall (Project_ok valid) ps →
  mapM (λ d, d' ← _serialize (Some d); Project_validate valid d') (stored_doc <$> ps)
  = Ret ps.
Proof.
  induction 1 as [|p ps Hp _ IH]; [done|].
  cbn [fmap list_fmap mapM]. fold (fmap (M:=list) stored_doc ps).
  rewrite serialize_stored. cbn [mbind res_bind].
  rewrite Project_validate_wire by done. by rewrite IH.
Qed.

(** ** [list_projects] *)

Lemma stored_category p :
  stored_doc p !! "category" = Some (dump_opt VStr (category p)).
Proof. reflexivity. Qed.

Lemma stored_tech_stack p :
  stored_doc p !! "tech_stack" = Some (dump_strs (tech_stack p)).
Proof. reflexivity. Qed.

Lemma field_is_category c p :
  field_is c (stored_doc p !! "category") = bool_decide (category p = Some c).
Proof.
  rewrite stored_category. destruct (category p) as [c'|]; cbn.
  - destruct (String.eqb c c') eqn:E.
    + apply String.eqb_eq in E as ->. by rewrite bool_decide_eq_true_2.
    + apply String.eqb_neq in E. rewrite bool_decide_eq_false_2; congruence.
  - by rewrite bool_decide_eq_false_2.
Qed.

Lemma field_is_tech t p :
  field_is t (stored_doc p !! "tech_stack") = bool_decide (t ∈ tech_stack p).
Proof.
  rewrite stored_tech_stack. unfold dump_strs. cbn [field_is].
  induction (tech_stack p) as [|x l IH].
  - cbn. rewrite bool_decide_eq_false_2; [done|]. apply not_elem_of_nil.
  - cbn [fmap list_fmap existsb]. fold (fmap (M:=list) VStr l). rewrite IH.
    destruct (String.eqb t x) eqn:E.
    + apply String.eqb_eq in E as ->. cbn. rewrite bool_decide_eq_true_2; [done|]. left.
    + apply String.eqb_neq in E. cbn. apply bool_decide_ext. rewrite elem_of_cons. intuition.
Qed.

Lemma matches_empty d : matches ∅ d = true.
Proof. unfold matches. apply bool_decide_eq_true_2, map_Forall_empty. Qed.

Lemma matches_insert k c (filt : gmap string cond) d :
  filt !! k = None →
  matches (<[k := c]> filt) d = holds c (d !! k) && matches filt d.
Proof.
  intros Hk. unfold matches.
  destruct (holds c (d !! k)) eqn:E; cbn.
  - apply bool_decide_ext. rewrite map_Forall_insert by done. intuition.
  - apply bool_decide_eq_false_2. rewrite map_Forall_insert by done.
    intros [H _]. congruence.
Qed.

(** On the non-empty filters, the Mongo filter that [list_projects] builds
    selects a stored Project as the specification words it. *)
Lemma list_filter_selected category tech p :
  category ≠ Some "" → tech ≠ Some "" →
  matches
    (match tech with
     | Some t =>
         if truthy (VStr t)
         then <["tech_stack" := In_ [t]]>
                (match category with
                 | Some c => if truthy (VStr c) then <["category" := Eq c]> ∅ else ∅
                 | None => ∅
                 end)
         else (match category with
               | Some c => if truthy (VStr c) then <["category" := Eq c]> ∅ else ∅
               | None => ∅
               end)
     | None => (match category with
                | Some c => if truthy (VStr c) then <["category" := Eq c]> ∅ else ∅
                | None => ∅
                end)
     end) (stored_doc p) = selected category tech p.
Proof.
  intros Hc Ht. unfold selected.
  assert (Hnz : ∀ x, Some x ≠ Some "" → truthy (VStr x) = true).
  { intros x Hx. cbn. destruct (String.eqb x "") eqn:E; [|done].
    apply String.eqb_eq in E. congruence. }
  destruct category as [c|], tech as [t|]; rewrite ?Hnz by done.
  - rewrite !matches_insert, matches_empty by (by simplify_map_eq). cbn [holds existsb].
    rewrite field_is_category, field_is_tech.
    by destruct (bool_decide (category p = Some c)), (bool_decide (t ∈ tech_stack p)).
  - rewrite !matches_insert, matches_empty by (by simplify_map_eq). cbn [holds].
    rewrite field_is_category. by destruct (bool_decide _).
  - rewrite !matches_insert, matches_empty by (by simplify_map_eq). cbn [holds existsb].
    rewrite field_is_tech. by destruct (bool_decide _).
  - by rewrite matches_empty.
Qed.

Lemma filter_stored (f : doc → bool) (g : Project → bool) ps :
  (∀ p, f (stored_doc p) = g p) →
  List.filter f (stored_doc <$> ps) = stored_doc <$> List.filter g ps.
Proof.
  intros Hfg. induction ps as [|p ps IH]; [done|].
  cbn [fmap list_fmap List.filter]. fold (fmap (M:=list) stored_doc ps).
  rewrite Hfg, IH. by destruct (g p).
Qed.

Lemma Forall_list_filter {A} (P : A → Prop) (g : A → bool) l :
  Forall P l → Forall P (List.filter g l).
Proof.
  induction 1 as [|x l Hx _ IH]; [constructor|].
  cbn. destruct (g x); [by constructor|done].
Qed.

Lemma list_filter_true {A} (g : A → bool) l :
  (∀ x, g x = true) → List.filter g l = l.
Proof. intros H. induction l as [|x l IH]; [done|]. cbn. by rewrite H, IH. Qed.

Section ListProjects.
Variable valid : string → bool.

Lemma list_projects_selected category tech ps s :
  store_inv valid ps s → category ≠ Some "" → tech ≠ Some "" →
  list_projects valid category tech s
  = Ret (List.filter (selected category tech) ps).
Proof.
  intros [Hd Hok _ _ _] Hc Ht. unfold list_projects, get_documents, find.
  rewrite Hd.
  rewrite (filter_stored _ (selected category tech)).
  - apply mapM_stored. by apply Forall_list_filter.
  - intros p. by apply list_filter_selected.
Qed.

Lemma list_projects_empty_category tech s :
  list_projects valid (Some "") tech s = list_projects valid None tech s.
Proof. reflexivity. Qed.

Lemma list_projects_empty_tech category s :
  list_projects valid category (Some "") s = list_projects valid category None s.
Proof. reflexivity. Qed.

End ListProjects.

(** ** [bootstrap_ai] *)

Lemma mapM_join_strs l :
  mapM (λ x, match x with VStr s => Ret s | _ => Raise TypeError end) (VStr <$> l)
  = Ret l.
Proof. induction l as [|x l IH]; [done|]. cbn. by rewrite IH. Qed.

Lemma py_join_strs sep l : py_join sep (dump_strs l) = Ret (join sep l).
Proof. unfold dump_strs. cbn [py_join]. by rewrite mapM_join_strs. Qed.

Lemma py_list_add_strs l l' :
  py_list_add l (dump_strs l') = Ret (l ++ (VStr <$> l'))%list.
Proof. reflexivity. Qed.

Lemma stored_name p : stored_doc p !! "name" = Some (VStr (name p)).
Proof. reflexivity. Qed.

Lemma stored_description p :
  stored_doc p !! "description" = Some (dump_opt VStr (description p)).
Proof. reflexivity. Qed.

(** The block is built when the category is a text, and the attribute
    lookup [.split] fails on the [None] that an absent category is stored
    as. *)
Lemma ai_block_stored p :
  ai_block (stored_doc p) =
    match category p with
    | Some c =>
        match AIInsights_dump (bootstrapped_ai p c) with
        | VDict blk => Ret blk
        | _ => Raise NotModelled
        end
    | None => Raise AttributeError
    end.
Proof.
  unfold ai_block, get_default.
  rewrite stored_name, stored_description, stored_tech_stack, stored_category.
  cbn [default from_option Datatypes.id]. rewrite py_join_strs. cbn [mbind res_bind py_str].
  assert (Hd : py_str (py_or (dump_opt VStr (description p))
                 (VStr "An innovative micro-app that solves a focused problem."))
               = Ret match description p with
                     | Some d =>
                         if truthy (VStr d) then d
                         else "An innovative micro-app that solves a focused problem."
                     | None => "An innovative micro-app that solves a focused problem."
                     end).
  { unfold py_or. destruct (description p) as [d|]; [|done].
    cbn [dump_opt]. by destruct (truthy (VStr d)). }
  rewrite Hd. cbn [mbind res_bind].
  destruct (category p) as [c|]; [|done].
  cbn [dump_opt py_split mbind res_bind]. rewrite py_list_add_strs.
  cbn [mbind res_bind].
  unfold AIInsights_dump, bootstrapped_ai, techs_of, dump_strs.
  cbn [summary pitch landing_copy deck_outline tags readiness_score
       market_fit_score suggestions dump_opt].
  by rewrite fmap_app, <- list_fmap_compose.
Qed.

Lemma bootstrapped_ai_ok p c : AIInsights_ok (bootstrapped_ai p c).
Proof. split; reflexivity. Qed.

Lemma set_stored (p : Project) c now blk :
  AIInsights_dump (bootstrapped_ai p c) = VDict blk →
  <["ai" := VDict blk]> (<["updated_at" := VDatetime now]> ∅) ∪ stored_doc p
  = stored_doc (bootstrapped p c now).
Proof.
  intros <-. unfold stored_doc, bootstrapped.
  cbn [project_in id created_at updated_at ai views saves watchers].
  apply map_eq. intros k.
  rewrite lookup_union.
  destruct (decide (k = "ai")) as [->|]; [by simplify_map_eq|].
  destruct (decide (k = "updated_at")) as [->|]; [by simplify_map_eq|].
  rewrite !lookup_insert_ne, lookup_empty by done.
  rewrite (left_id None _).
  destruct (decide (k = "_id")) as [->|]; [by simplify_map_eq|].
  rewrite !(lookup_insert_ne _ "_id") by done.
  rewrite !(lookup_insert_ne _ "ai") by done.
  do 3 (rewrite (lookup_insert _ _ k); symmetry; rewrite (lookup_insert _ _ k); symmetry;
        case_decide; [done|]).
  rewrite (lookup_insert _ _ k); symmetry; rewrite (lookup_insert _ _ k); symmetry.
  case_decide; [done|].
  by rewrite !(lookup_insert_ne _ "updated_at") by done.
Qed.

Lemma update_stored h sets ps p p' :
  lookup_project h ps = Some p →
  sets ∪ stored_doc p = stored_doc p' →
  update_one_set h sets (stored_doc <$> ps) = stored_doc <$> replace_first h p' ps.
Proof.
  unfold lookup_project. intros Hf Hset. induction ps as [|q ps IH]; [done|].
  cbn [List.find] in Hf. cbn [fmap list_fmap update_one_set replace_first].
  fold (fmap (M:=list) stored_doc ps). rewrite has_id_stored.
  destruct (String.eqb h (id q)).
  - injection Hf as ->. by rewrite Hset.
  - cbn [fmap list_fmap]. fold (fmap (M:=list) stored_doc (replace_first h p' ps)).
    by rewrite IH.
Qed.

Lemma lookup_replace_first h p' ps p :
  lookup_project h ps = Some p → id p' = h →
  lookup_project h (replace_first h p' ps) = Some p'.
Proof.
  unfold lookup_project. intros Hf Hid. induction ps as [|q ps IH]; [done|].
  cbn [List.find replace_first] in *.
  destruct (String.eqb h (id q)) eqn:E.
  - cbn [List.find]. by rewrite Hid, String.eqb_refl.
  - cbn [List.find]. rewrite E. by apply IH.
Qed.

Lemma replace_first_ids h p' ps p :
  lookup_project h ps = Some p → id p' = h →
  id <$> replace_first h p' ps = id <$> ps.
Proof.
  unfold lookup_project. intros Hf Hid. induction ps as [|q ps IH]; [done|].
  cbn [List.find replace_first] in *.
  destruct (String.eqb h (id q)) eqn:E.
  - apply String.eqb_eq in E. rewrite !fmap_cons. congruence.
  - rewrite !fmap_cons. by rewrite IH.
Qed.

Lemma replace_first_Forall (P : Project → Prop) h p' ps :
  Forall P ps → P p' → Forall P (replace_first h p' ps).
Proof.
  intros Hps Hp'. induction Hps as [|q ps Hq Hps IH]; [constructor|].
  cbn [replace_first]. destruct (String.eqb h (id q)); by constructor.
Qed.

Section BootstrapAI.
Variable valid : string → bool.

(** A bootstrap of a stored Project whose category is a text. *)
Lemma bootstrap_ai_stored ps s project_id h p c now :
  store_inv valid ps s → ObjectId project_id = Ret h →
  lookup_project h ps = Some p → category p = Some c →
  bootstrap_ai project_id now s
  = (Ret (wire_doc (bootstrapped p c now)),
     {| docs := stored_doc <$> replace_first h (bootstrapped p c now) ps;
        next_oid := next_oid s |}).
Proof.
  intros Hinv Hoid Hp Hc. unfold bootstrap_ai. rewrite Hoid.
  rewrite (find_one_stored valid ps) by done. rewrite Hp. cbn [fmap option_fmap option_map].
  rewrite stored_doc_truthy. cbn [negb]. rewrite ai_block_stored, Hc.
  destruct (AIInsights_dump (bootstrapped_ai p c)) as [| | | | | |blk| | |] eqn:Hblk;
    try discriminate Hblk.
  unfold update_one. rewrite (inv_docs _ _ _ Hinv).
  rewrite (update_stored h _ ps p (bootstrapped p c now))
    by (done || by apply set_stored).
  unfold find_one. cbn [docs]. rewrite find_stored.
  rewrite (lookup_replace_first h _ ps p) by (done || by apply lookup_project_Some in Hp as [_ ?]).
  cbn [fmap option_fmap option_map]. by rewrite serialize_stored.
Qed.

(** A bootstrap of a stored Project without a category. *)
Lemma bootstrap_ai_stored_None ps s project_id h p now :
  store_inv valid ps s → ObjectId project_id = Ret h →
  lookup_project h ps = Some p → category p = None →
  bootstrap_ai project_id now s = (Raise AttributeError, s).
Proof.
  intros Hinv Hoid Hp Hc. unfold bootstrap_ai. rewrite Hoid.
  rewrite (find_one_stored valid ps) by done. rewrite Hp. cbn [fmap option_fmap option_map].
  rewrite stored_doc_truthy. cbn [negb]. by rewrite ai_block_stored, Hc.
Qed.

Lemma bootstrapped_ok p c now :
  Project_ok valid p → Project_ok valid (bootstrapped p c now).
Proof. intros [Hin _]. split; [done|apply bootstrapped_ai_ok]. Qed.

Lemma bootstrap_ai_inv ps s h p c now :
  store_inv valid ps s → lookup_project h ps = Some p →
  store_inv valid (replace_first h (bootstrapped p c now) ps)
    {| docs := stored_doc <$> replace_first h (bootstrapped p c now) ps;
       next_oid := next_oid s |}.
Proof.
  intros [Hd Hok Hids Hnd Hb] Hp.
  pose proof (lookup_project_Some _ _ _ Hp) as [Hin Hid].
  assert (Hp_ok : Project_ok valid p) by (by eapply Forall_forall in Hok).
  assert (Hp_id : ∃ n, n < next_oid s ∧ id p = oid_of_counter n).
  { by apply (proj1 (Forall_forall _ _) Hids p). }
  split; cbn [docs next_oid].
  - done.
  - apply replace_first_Forall; [done|]. by apply bootstrapped_ok.
  - by apply replace_first_Forall.
  - by rewrite (replace_first_ids h _ ps p).
  - done.
Qed.

End BootstrapAI.

(** ** [create_project] *)

Lemma find_app_fresh h (l : list doc) d :
  existsb (has_id h) l = false → has_id h d = true →
  List.find (has_id h) (l ++ [d]) = Some d.
Proof.
  intros Hl Hd. induction l as [|x l IH]; cbn in *; [by rewrite Hd|].
  apply orb_false_iff in Hl as [-> Hl]. by apply IH.
Qed.

Section CreateProject.
Variable valid : string → bool.

Lemma create_project_fresh payload now s :
  fresh s → ProjectIn_ok valid payload →
  create_project valid payload now s
  = (Ret (created payload (oid_of_counter (next_oid s)) now),
     {| docs := docs s ++ [stored_doc (created payload (oid_of_counter (next_oid s)) now)];
        next_oid := next_oid s + 1 |}).
Proof.
  intros Hfresh Hok. unfold create_project, create_document, insert_one.
  unfold fresh in Hfresh. rewrite Hfresh.
  rewrite ObjectId_oid_of_counter. cbn [mbind res_bind].
  set (P := created payload (oid_of_counter (next_oid s)) now).
  change (<["_id" := _]> _) with (stored_doc P).
  unfold find_one. cbn [docs].
  rewrite find_app_fresh; [|done|by rewrite has_id_stored, String.eqb_refl].
  rewrite serialize_stored. cbn [mbind res_bind].
  rewrite Project_validate_wire; [done|]. split; [done|]. by split.
Qed.

Lemma get_opt_float_ok ok k d o :
  get_opt_float ok k d = Ret o → opt_ok ok o.
Proof.
  unfold get_opt_float.
  destruct (d !! k) as [[| |z|q| | | | | |]|]; try discriminate;
    try (destruct (ok _) eqn:E; [|discriminate]); by intros [= <-].
Qed.

Lemma get_opt_url_ok k d o : get_opt_url valid k d = Ret o → opt_ok valid o.
Proof.
  unfold get_opt_url.
  destruct (d !! k) as [[| | | |u| | | | |]|]; try discriminate;
    try (destruct (valid u) eqn:E; [|discriminate]); by intros [= <-].
Qed.

Lemma bind_Ret {A B} (m : res A) (k : A → res B) b :
  m ≫= k = Ret b → ∃ a, m = Ret a ∧ k a = Ret b.
Proof. destruct m as [a|e]; [by exists a|discriminate]. Qed.

Lemma Pricing_validate_ok v p : Pricing_validate v = Ret p → Pricing_ok p.
Proof.
  destruct v as [| | | | | |d| | |]; try discriminate. unfold Pricing_validate.
  intros H.
  apply bind_Ret in H as (ty & _ & H). apply bind_Ret in H as (am & Ham & H).
  apply bind_Ret in H as (cu & _ & H). injection H as <-.
  by apply get_opt_float_ok in Ham.
Qed.

Lemma Links_validate_ok v l : Links_validate valid v = Ret l → Links_ok valid l.
Proof.
  destruct v as [| | | | | |d| | |]; try discriminate. unfold Links_validate.
  intros H.
  apply bind_Ret in H as (ex & Hex & H). apply bind_Ret in H as (gi & Hgi & H).
  apply bind_Ret in H as (em & Hem & H). apply bind_Ret in H as (zi & Hzi & H).
  injection H as <-. repeat split; by eapply get_opt_url_ok.
Qed.

Lemma get_opt_model_ok {M} (validate : value → res M) (ok : M → Prop) k d o :
  (∀ v m, validate v = Ret m → ok m) →
  get_opt_model validate k d = Ret o → from_option ok True o.
Proof.
  intros Hv. unfold get_opt_model.
  destruct (d !! k) as [v|]; [|by intros [= <-]].
  destruct v; try (by intros [= <-]);
    intros H; apply bind_Ret in H as (m & Hm & [= <-]); by eapply Hv.
Qed.

(** A payload that passed the validation meets the declared constraints. *)
Lemma ProjectIn_validate_ok d p :
  ProjectIn_validate valid d = Ret p → ProjectIn_ok valid p.
Proof.
  unfold ProjectIn_validate. intros H.
  apply bind_Ret in H as (na & _ & H). apply bind_Ret in H as (de & _ & H).
  apply bind_Ret in H as (te & _ & H). apply bind_Ret in H as (ca & _ & H).
  apply bind_Ret in H as (pr & Hpr & H). apply bind_Ret in H as (st & _ & H).
  apply bind_Ret in H as (li & Hli & H). apply bind_Ret in H as (th & _ & H).
  injection H as <-. split; cbn [pricing links].
  - eapply get_opt_model_ok; [|done]. apply Pricing_validate_ok.
  - eapply get_opt_model_ok; [|done]. apply Links_validate_ok.
Qed.

Lemma store_inv_fresh ps s :
  store_inv valid ps s → next_oid s < 16 ^ 24 → fresh s.
Proof.
  intros [Hd _ Hids _ _] Hlt. unfold fresh. rewrite Hd.
  apply not_true_iff_false. intros H. apply existsb_exists in H as (d & Hin & Hh).
  apply list_elem_of_In, list_elem_of_fmap in Hin as (p & -> & Hp).
  rewrite has_id_stored in Hh. apply String.eqb_eq in Hh.
  apply (proj1 (Forall_forall _ _) Hids) in Hp as (n & Hn & Hid).
  rewrite Hid in Hh. apply oid_of_counter_inj in Hh; lia.
Qed.

Lemma create_project_inv ps s payload now :
  store_inv valid ps s → next_oid s < 16 ^ 24 → ProjectIn_ok valid payload →
  store_inv valid (ps ++ [created payload (oid_of_counter (next_oid s)) now])
    {| docs := docs s ++ [stored_doc (created payload (oid_of_counter (next_oid s)) now)];
       next_oid := next_oid s + 1 |}.
Proof.
  intros Hinv Hlt Hok. pose proof Hinv as [Hd Hoks Hids Hnd Hb].
  split; cbn [docs next_oid].
  - by rewrite Hd, fmap_app.
  - apply Forall_app. split; [done|]. apply Forall_singleton. split; [done|by split].
  - apply Forall_app. split.
    + eapply Forall_impl; [done|]. intros p (n & Hn & Hid). exists n. split; [lia|done].
    + apply Forall_singleton. exists (next_oid s). split; [lia|done].
  - rewrite fmap_app. apply NoDup_app. split; [done|]. split.
    + intros h Hin Hin'. cbn in Hin'. apply list_elem_of_singleton in Hin'. subst h.
      apply list_elem_of_fmap in Hin as (p & Hid & Hp).
      apply (proj1 (Forall_forall _ _) Hids) in Hp as (n & Hn & Hid').
      rewrite Hid' in Hid. apply oid_of_counter_inj in Hid; lia.
    + cbn. apply NoDup_singleton.
  - lia.
Qed.

End CreateProject.

(** ** The sample stores *)

Lemma empty_store_inv valid : store_inv valid [] empty_store.
Proof.
  split; cbn [docs next_oid empty_store].
  - done.
  - constructor.
  - constructor.
  - constructor.
  - apply N.le_0_l.
Qed.

Lemma store_foo_inv : store_inv has_http_scheme [project_foo] store_foo.
Proof.
  apply (create_project_inv has_http_scheme [] empty_store (only_name "Foo") 5).
  - apply empty_store_inv.
  - reflexivity.
  - by split.
Qed.

Lemma store_two_inv :
  store_inv has_http_scheme [project_foo; project_go] store_two.
Proof.
  apply (create_project_inv has_http_scheme [project_foo] store_foo
           (project_in project_go) 6).
  - apply store_foo_inv.
  - reflexivity.
  - by split.
Qed.

(** ** [get_project] *)

Lemma store_inv_ObjectId valid ps s p :
  store_inv valid ps s → p ∈ ps → ObjectId (id p) = Ret (id p).
Proof.
  intros Hinv Hp. apply (proj1 (Forall_forall _ _) (inv_ids _ _ _ Hinv)) in Hp
    as (n & _ & ->). apply ObjectId_oid_of_counter.
Qed.

Lemma get_project_found valid ps s project_id (p : Project) :
  store_inv valid ps s → p ∈ ps → ObjectId project_id = Ret (id p) →
  get_project valid project_id s = Ret p.
Proof.
  intros Hinv Hp Hoid. unfold get_project. rewrite Hoid.
  rewrite (find_one_stored valid ps) by done.
  rewrite lookup_project_NoDup by (done || apply (inv_nodup _ _ _ Hinv)).
  cbn [fmap option_fmap option_map]. rewrite stored_doc_truthy.
  apply serialize_validate_stored.
  by apply (proj1 (Forall_forall _ _) (inv_ok _ _ _ Hinv)).
Qed.

(** C6: [get_project] answers 400 (InvalidIdentifier) for every text that
    [ObjectId] refuses, whatever the store holds; 404 (NotFound) for every
    text [ObjectId] accepts when no stored document has that identifier; and
    the stored Project when one has. *)
Theorem get_project_outcomes valid project_id s :
  ((∀ h, ObjectId project_id ≠ Ret h) →
     get_project valid project_id s = Raise InvalidIdentifier) ∧
  (∀ h, ObjectId project_id = Ret h → find_one h s = None →
     get_project valid project_id s = Raise NotFound) ∧
  (∀ ps p, store_inv valid ps s → p ∈ ps → ObjectId project_id = Ret (id p) →
     get_project valid project_id s = Ret p).
Proof.
  split; [|split].
  - intros Hbad. unfold get_project.
    destruct (ObjectId project_id) as [h|e]; [by destruct (Hbad h)|done].
  - intros h Hoid Hnone. unfold get_project. by rewrite Hoid, Hnone.
  - intros ps p Hinv Hp Hoid. by apply (get_project_found valid ps).
Qed.

Lemma get_project_outcomes_witness :
  get_project has_http_scheme "not-an-id" store_two = Raise InvalidIdentifier ∧
  get_project has_http_scheme "0123456789abcdef01234567" store_two = Raise NotFound ∧
  get_project has_http_scheme "000000000000000000000001" store_two = Ret project_go.
Proof.
  pose proof (get_project_outcomes has_http_scheme "not-an-id" store_two) as (H1 & _ & _).
  pose proof (get_project_outcomes has_http_scheme "0123456789abcdef01234567" store_two)
    as (_ & H2 & _).
  pose proof (get_project_outcomes has_http_scheme "000000000000000000000001" store_two)
    as (_ & _ & H3).
  split; [|split].
  - apply H1. intros h. vm_compute. discriminate.
  - apply (H2 "0123456789abcdef01234567"); reflexivity.
  - apply (H3 [project_foo; project_go] project_go store_two_inv).
    + apply list_elem_of_In. right. left. reflexivity.
    + reflexivity.
Defined.

(** ** Creation *)

Lemma ProjectIn_validate_only_name valid n :
  ProjectIn_validate valid {["name" := VStr n]} = Ret (only_name n).
Proof. reflexivity. Qed.

(** C7: posting a body that sets only [name] succeeds whenever the store can
    hand out an unused identifier: the Project returned (and stored) has
    empty [tech_stack], [thumbnails] and [ai.tags], status "MVP", the
    all-empty [ai], the three counters at 0 and [created_at] equal to
    [updated_at]. *)
Theorem create_only_name valid n now s :
  fresh s →
  ∃ p,
    post_projects valid {["name" := VStr n]} now s
    = (Ret p, {| docs := docs s ++ [stored_doc p]; next_oid := next_oid s + 1 |}) ∧
    name p = n ∧ tech_stack p = [] ∧ thumbnails p = [] ∧ tags (ai p) = [] ∧
    status p = "MVP" ∧ ai p = AIInsights_default ∧
    views p = 0%Z ∧ saves p = 0%Z ∧ watchers p = 0%Z ∧
    created_at p = updated_at p.
Proof.
  intros Hfresh. exists (created (only_name n) (oid_of_counter (next_oid s)) now).
  split; [|done].
  unfold post_projects. rewrite ProjectIn_validate_only_name.
  apply create_project_fresh; [done|by split].
Qed.

Lemma create_only_name_witness :
  ∃ p,
    post_projects has_http_scheme {["name" := VStr "Foo"]} 5 empty_store
    = (Ret p, {| docs := docs empty_store ++ [stored_doc p];
                 next_oid := next_oid empty_store + 1 |}) ∧
    name p = "Foo" ∧ tech_stack p = [] ∧ thumbnails p = [] ∧ tags (ai p) = [] ∧
    status p = "MVP" ∧ ai p = AIInsights_default ∧
    views p = 0%Z ∧ saves p = 0%Z ∧ watchers p = 0%Z ∧
    created_at p = updated_at p.
Proof. apply (create_only_name has_http_scheme "Foo" 5 empty_store). reflexivity. Defined.

Lemma ge0_negative q : (q < 0)%Q → ge0 q = false.
Proof.
  intros Hq. unfold ge0. apply not_true_iff_false. intros H.
  apply Qle_bool_iff in H. by apply Qlt_not_le in Hq.
Qed.

Lemma ge0_negative_int z : (z < 0)%Z → ge0 (inject_Z z) = false.
Proof.
  intros Hz. apply ge0_negative. change 0%Q with (inject_Z 0).
  by rewrite <- Zlt_Qlt.
Qed.

Lemma bind_Raise {A B} (m : res A) (k : A → res B) :
  (∀ a, ∃ e, k a = Raise e) → ∃ e, m ≫= k = Raise e.
Proof. intros Hk. destruct m as [a|e]; [apply Hk|by exists e]. Qed.

Lemma bind_Raise_l {A B} (m : res A) (k : A → res B) :
  (∃ e, m = Raise e) → ∃ e, m ≫= k = Raise e.
Proof. intros [e ->]. by exists e. Qed.

Lemma Pricing_validate_negative pr :
  ((∃ q, pr !! "amount" = Some (VFloat q) ∧ (q < 0)%Q) ∨
   (∃ z, pr !! "amount" = Some (VInt z) ∧ (z < 0)%Z)) →
  ∃ e, Pricing_validate (VDict pr) = Raise e.
Proof.
  intros Hneg. unfold Pricing_validate.
  apply bind_Raise. intros ty. apply bind_Raise_l.
  unfold get_opt_float.
  destruct Hneg as [(q & -> & Hq)|(z & -> & Hz)].
  - rewrite ge0_negative by done. by eexists.
  - rewrite ge0_negative_int by done. by eexists.
Qed.

Section SchemaViolation.
Variable valid : string → bool.

Lemma get_opt_url_malformed k (l : doc) u :
  l !! k = Some (VStr u) → valid u = false →
  ∃ e, get_opt_url valid k l = Raise e.
Proof. intros Hk Hu. unfold get_opt_url. rewrite Hk, Hu. by eexists. Qed.

Lemma Links_validate_malformed (l : doc) k u :
  k ∈ ["external_url"; "github_url"; "embed_url"; "zip_url"] →
  l !! k = Some (VStr u) → valid u = false →
  ∃ e, Links_validate valid (VDict l) = Raise e.
Proof.
  intros Hk Hl Hu. unfold Links_validate.
  pose proof (get_opt_url_malformed k l u Hl Hu) as Hbad.
  repeat (apply elem_of_cons in Hk as [->|Hk];
          [repeat first [by apply bind_Raise_l | apply bind_Raise; intros ?]|]).
  by apply elem_of_nil in Hk.
Qed.

Lemma ProjectIn_validate_refuses body :
  amount_negative body ∨ link_malformed valid body →
  ∃ e, ProjectIn_validate valid body = Raise e.
Proof.
  intros Hbad. unfold ProjectIn_validate.
  do 4 (apply bind_Raise; intros ?).
  destruct Hbad as [(pr & Hpr & Hneg)|(l & k & u & Hl & Hk & Hu & Hv)].
  - apply bind_Raise_l. unfold get_opt_model. rewrite Hpr.
    apply bind_Raise_l. by apply Pricing_validate_negative.
  - do 2 (apply bind_Raise; intros ?).
    apply bind_Raise_l. unfold get_opt_model. rewrite Hl.
    apply bind_Raise_l. by eapply Links_validate_malformed.
Qed.

(** C8: a create request whose [pricing.amount] is negative, or one of whose
    [links] is a text the URL check refuses, is answered 422
    (SchemaViolation) and leaves the store as it was. *)
Theorem create_schema_violation body now s :
  amount_negative body ∨ link_malformed valid body →
  post_projects valid body now s = (Raise SchemaViolation, s).
Proof.
  intros Hbad. unfold post_projects.
  by destruct (ProjectIn_validate_refuses body Hbad) as [e ->].
Qed.

End SchemaViolation.

Lemma create_schema_violation_witness :
  post_projects has_http_scheme body_negative_amount 5 store_two
    = (Raise SchemaViolation, store_two) ∧
  post_projects has_http_scheme body_bad_link 5 store_two
    = (Raise SchemaViolation, store_two).
Proof.
  split; apply create_schema_violation.
  - left. exists (<["type" := VStr "one-time"]> {["amount" := VInt (-1)]}).
    split; [reflexivity|]. right. exists (-1)%Z. split; [reflexivity|lia].
  - right. exists {["external_url" := VStr "not-a-url"]}, "external_url", "not-a-url".
    split; [reflexivity|]. split; [left|]. split; reflexivity.
Defined.

(** ** Listing *)

(** C5, as the code has it: without filters [list_projects] returns every
    stored Project; for every non-empty text [c] the category filter returns
    exactly the Projects whose category is [c]; for every non-empty text [t]
    the tech filter returns exactly those whose tech stack contains [t]; both
    filters given select the Projects that meet both. *)
Theorem list_projects_filters valid ps s :
  store_inv valid ps s →
  list_projects valid None None s = Ret ps ∧
  ∀ category tech, category ≠ Some "" → tech ≠ Some "" →
    list_projects valid category tech s
    = Ret (List.filter (selected category tech) ps).
Proof.
  intros Hinv. split.
  - rewrite (list_projects_selected valid None None ps) by done.
    by rewrite list_filter_true.
  - intros category tech. by apply list_projects_selected.
Qed.

Lemma list_projects_filters_witness :
  list_projects has_http_scheme None None store_two = Ret [project_foo; project_go] ∧
  list_projects has_http_scheme (Some "Dev Tools") (Some "Go") store_two
    = Ret [project_go] ∧
  list_projects has_http_scheme (Some "Dev Tools") (Some "Rust") store_two = Ret [].
Proof.
  destruct (list_projects_filters has_http_scheme _ _ store_two_inv) as [Hall Hsel].
  split; [exact Hall|]. split.
  - rewrite Hsel by discriminate. reflexivity.
  - rewrite Hsel by discriminate. reflexivity.
Defined.

(** C5 as stated fails at the empty text: [list(category="")] returns both
    sample Projects, and neither has the empty text as its category. *)
Lemma list_projects_empty_category_counterexample :
  list_projects has_http_scheme (Some "") None store_two
    = Ret [project_foo; project_go] ∧
  List.filter (selected (Some "") None) [project_foo; project_go] = [] ∧
  category project_foo ≠ Some "" ∧ category project_go ≠ Some "".
Proof. repeat split; (reflexivity || discriminate). Qed.

(** C10: an empty text given as a filter is no filter: [list_projects]
    answers as if the parameter were absent, so with only empty filters it
    returns every stored Project. *)
Theorem list_projects_empty_filter_ignored valid category tech s :
  list_projects valid (Some "") tech s = list_projects valid None tech s ∧
  list_projects valid category (Some "") s = list_projects valid category None s ∧
  ∀ ps, store_inv valid ps s →
    list_projects valid (Some "") None s = Ret ps ∧
    list_projects valid None (Some "") s = Ret ps ∧
    list_projects valid (Some "") (Some "") s = Ret ps.
Proof.
  split; [reflexivity|]. split; [reflexivity|]. intros ps Hinv.
  assert (H : list_projects valid None None s = Ret ps).
  { rewrite (list_projects_selected valid None None ps) by done.
    by rewrite list_filter_true. }
  done.
Qed.

Lemma list_projects_empty_filter_ignored_witness :
  list_projects has_http_scheme (Some "") None store_two
    = Ret [project_foo; project_go] ∧
  list_projects has_http_scheme None (Some "") store_two
    = Ret [project_foo; project_go] ∧
  list_projects has_http_scheme (Some "") (Some "") store_two
    = Ret [project_foo; project_go].
Proof.
  destruct (list_projects_empty_filter_ignored has_http_scheme None None store_two)
    as (_ & _ & H).
  exact (H _ store_two_inv).
Defined.

(** ** Frame *)

Lemma update_one_set_length h sets l :
  length (update_one_set h sets l) = length l.
Proof.
  induction l as [|d l IH]; [done|]. cbn [update_one_set].
  destruct (has_id h d); cbn; by rewrite ?IH.
Qed.

Lemma update_one_set_lookup h sets (l : list doc) i d :
  l !! i = Some d →
  ∃ d', update_one_set h sets l !! i = Some d' ∧ (d' = d ∨ d' = sets ∪ d).
Proof.
  revert i. induction l as [|x l IH]; intros i Hi; [done|].
  cbn [update_one_set]. destruct (has_id h x).
  - destruct i as [|i]; cbn in *.
    + injection Hi as ->. eauto.
    + eauto.
  - destruct i as [|i]; cbn in *.
    + injection Hi as ->. eauto.
    + by apply IH.
Qed.

Lemma set_ai_other (blk : doc) now (d : doc) k :
  k ≠ "ai" → k ≠ "updated_at" →
  (<["ai" := VDict blk]> (<["updated_at" := VDatetime now]> ∅) ∪ d) !! k = d !! k.
Proof.
  intros H1 H2. rewrite lookup_union, !lookup_insert_ne, lookup_empty by done.
  apply (left_id None _).
Qed.

(** What a bootstrap does to the store: nothing, or the [$set] of [ai] and
    [updated_at] on one document. *)
Lemma bootstrap_ai_store project_id now s :
  (bootstrap_ai project_id now s).2 = s ∨
  ∃ h blk,
    (bootstrap_ai project_id now s).2
    = update_one h (<["ai" := VDict blk]> (<["updated_at" := VDatetime now]> ∅)) s.
Proof.
  unfold bootstrap_ai. destruct (ObjectId project_id) as [h|e]; [|by left].
  destruct (find_one h s) as [d|]; [|by left].
  destruct (negb (truthy (VDict d))); [by left|].
  destruct (ai_block d) as [blk|e]; [|by left].
  right. by exists h, blk.
Qed.

Lemma update_one_only_ai h blk now s :
  only_ai_changed s
    (update_one h (<["ai" := VDict blk]> (<["updated_at" := VDatetime now]> ∅)) s).
Proof.
  split; cbn [update_one docs].
  - apply update_one_set_length.
  - intros i d Hi.
    destruct (update_one_set_lookup h
                (<["ai" := VDict blk]> (<["updated_at" := VDatetime now]> ∅))
                _ i d Hi) as (d' & Hd' & [->| ->]).
    + by exists d.
    + eexists. split; [done|]. intros k. apply set_ai_other.
Qed.

Lemma only_ai_changed_counters s s' : only_ai_changed s s' → counters_kept s s'.
Proof.
  intros [_ H] i d Hi. destruct (H i d Hi) as (d' & Hd' & Hk).
  exists d'. split; [done|]. by rewrite !Hk.
Qed.

Lemma counters_kept_refl s : counters_kept s s.
Proof. intros i d Hi. by exists d. Qed.

Lemma create_project_store valid payload now s :
  ∃ l, docs (create_project valid payload now s).2 = (docs s ++ l)%list.
Proof.
  unfold create_project, create_document, insert_one.
  destruct (existsb _ _); cbn [snd docs].
  - exists []. by rewrite app_nil_r.
  - by eexists.
Qed.

(** C9: a bootstrap that succeeds adds and removes no document and leaves
    every stored field other than [ai] and [updated_at] as it was; and
    whatever request is served, every stored document keeps its [views],
    [saves] and [watchers]. *)
Theorem bootstrap_ai_frame :
  (∀ project_id now s r s',
     bootstrap_ai project_id now s = (Ret r, s') → only_ai_changed s s') ∧
  (∀ valid env now rq s, counters_kept s (serve valid env now rq s).2).
Proof.
  split.
  - intros project_id now s r s' Hb.
    destruct (bootstrap_ai_store project_id now s) as [Hs|(h & blk & Hs)];
      rewrite Hb in Hs; cbn [snd] in Hs; subst s'.
    + split; [done|]. intros i d Hi. by exists d.
    + apply update_one_only_ai.
  - intros valid env now rq s. destruct rq; cbn [serve snd];
      try apply counters_kept_refl.
    + destruct (post_projects valid body now s) as [p s'] eqn:E. cbn [snd].
      assert (Hs' : ∃ l, docs s' = (docs s ++ l)%list).
      { unfold post_projects in E. destruct (ProjectIn_validate valid body) as [pl|e].
        - destruct (create_project_store valid pl now s) as [l Hl].
          rewrite E in Hl. by exists l.
        - injection E as _ <-. exists []. by rewrite app_nil_r. }
      destruct Hs' as [l Hl]. intros i d Hi. exists d.
      split; [|done]. rewrite Hl. by apply lookup_app_l_Some.
    + destruct (bootstrap_ai project_id now s) as [r s'] eqn:E. cbn [snd].
      destruct (bootstrap_ai_store project_id now s) as [Hs|(h & blk & Hs)];
        rewrite E in Hs; cbn [snd] in Hs; subst s'.
      * apply counters_kept_refl.
      * apply only_ai_changed_counters, update_one_only_ai.
Qed.

Lemma bootstrap_ai_frame_witness :
  only_ai_changed store_two (bootstrap_ai "000000000000000000000001" 7 store_two).2 ∧
  counters_kept store_two
    (serve has_http_scheme {| DATABASE_URL := None; DATABASE_NAME := None |} 7
       (PostBootstrapAI "000000000000000000000001") store_two).2.
Proof.
  destruct bootstrap_ai_frame as [H1 H2]. split.
  - apply (H1 "000000000000000000000001" 7 store_two
              (wire_doc (bootstrapped project_go "Dev Tools" 7))).
    vm_compute. reflexivity.
  - apply H2.
Defined.

(** ** Bootstrapping Projects with and without a category *)

Section Bootstrap.
Variable valid : string → bool.

Lemma store_inv_lookup ps s (p : Project) :
  store_inv valid ps s → p ∈ ps → lookup_project (id p) ps = Some p.
Proof. intros Hinv Hp. apply lookup_project_NoDup; [apply (inv_nodup _ _ _ Hinv)|done]. Qed.

(** For a stored Project whose category is the text [c], the bootstrap
    succeeds: it stores and returns the derived insights, the tags being
    the lower-cased tokens of [c] followed by the tech stack. *)
Lemma bootstrap_ai_category_text ps s (p : Project) c now :
  store_inv valid ps s → p ∈ ps → category p = Some c →
  bootstrap_ai (id p) now s
  = (Ret (wire_doc (bootstrapped p c now)),
     {| docs := stored_doc <$> replace_first (id p) (bootstrapped p c now) ps;
        next_oid := next_oid s |}) ∧
  tags (ai (bootstrapped p c now)) = ((lower <$> split c) ++ tech_stack p)%list ∧
  pitch (ai (bootstrapped p c now))
    = Some (name p ++ " helps teams move faster by automating key workflows using "
            ++ techs_of p ++ ".") ∧
  deck_outline (ai (bootstrapped p c now)) = Some deck_outline_fixed ∧
  readiness_score (ai (bootstrapped p c now)) = Some 60%Q ∧
  market_fit_score (ai (bootstrapped p c now)) = Some 55%Q ∧
  suggestions (ai (bootstrapped p c now)) = Some suggestions_fixed.
Proof.
  intros Hinv Hp Hc. split; [|done].
  apply (bootstrap_ai_stored valid ps); try done.
  - by apply (store_inv_ObjectId valid ps s).
  - by apply (store_inv_lookup ps s).
Qed.

(** Two bootstraps in a row of a stored Project whose category is a text:
    the same [ai] both times, and [updated_at] is the clock reading of each
    call. *)
Lemma bootstrap_ai_twice_category_text ps s (p : Project) c t1 t2 :
  store_inv valid ps s → p ∈ ps → category p = Some c →
  ∃ s1 s2,
    bootstrap_ai (id p) t1 s = (Ret (wire_doc (bootstrapped p c t1)), s1) ∧
    bootstrap_ai (id p) t2 s1 = (Ret (wire_doc (bootstrapped p c t2)), s2) ∧
    wire_doc (bootstrapped p c t1) !! "ai" = wire_doc (bootstrapped p c t2) !! "ai" ∧
    wire_doc (bootstrapped p c t1) !! "updated_at" = Some (VIsoText t1) ∧
    wire_doc (bootstrapped p c t2) !! "updated_at" = Some (VIsoText t2).
Proof.
  intros Hinv Hp Hc.
  pose proof (store_inv_ObjectId _ _ _ _ Hinv Hp) as Hoid.
  pose proof (store_inv_lookup _ _ _ Hinv Hp) as Hl.
  eexists _, _. split; [by apply (bootstrap_ai_stored valid ps)|].
  split; [|done].
  pose proof (bootstrap_ai_inv valid ps s (id p) p c t1 Hinv Hl) as Hinv1.
  rewrite (bootstrap_ai_stored valid _ _ (id p) (id p) (bootstrapped p c t1) c t2 Hinv1);
    first reflexivity; try done.
  by apply (lookup_replace_first _ _ _ p).
Qed.

(** C1: for a stored Project without a category, [bootstrap_ai] sets no
    tags at all: the [None] the absent category is stored as has no [split],
    the handler ends in [AttributeError] and the store is as before. *)
Theorem bootstrap_ai_tags_category_absent ps s (p : Project) now :
  store_inv valid ps s → p ∈ ps → category p = None →
  bootstrap_ai (id p) now s = (Raise AttributeError, s).
Proof.
  intros Hinv Hp Hc. apply (bootstrap_ai_stored_None valid ps s (id p) (id p) p); try done.
  - by apply (store_inv_ObjectId valid ps s).
  - by apply (store_inv_lookup ps s).
Qed.

(** C3: the Project a create request with only [name] has stored gets no
    insights from [bootstrap_ai]: the handler ends in [AttributeError], and
    the Project read back still has the all-empty [ai], its pitch unset. *)
Theorem bootstrap_ai_no_insights_after_create n now now' s s1 (p : Project) :
  fresh s → post_projects valid {["name" := VStr n]} now s = (Ret p, s1) →
  bootstrap_ai (id p) now' s1 = (Raise AttributeError, s1) ∧
  ∀ ps, store_inv valid ps s → next_oid s < 16 ^ 24 →
    get_project valid (id p) s1 = Ret p ∧ pitch (ai p) = None.
Proof.
  intros Hfresh Hpost. unfold post_projects in Hpost.
  rewrite ProjectIn_validate_only_name in Hpost.
  rewrite create_project_fresh in Hpost by (done || by split).
  injection Hpost as <- <-.
  set (P := created (only_name n) (oid_of_counter (next_oid s)) now).
  split.
  - unfold bootstrap_ai. cbn [id P created]. rewrite ObjectId_oid_of_counter.
    unfold find_one. cbn [docs]. fold P.
    rewrite find_app_fresh; [|done|by rewrite has_id_stored, String.eqb_refl].
    rewrite stored_doc_truthy. cbn [negb]. by rewrite ai_block_stored.
  - intros ps Hinv Hlt. split; [|done].
    pose proof (create_project_inv valid ps s (only_name n) now Hinv Hlt) as Hinv'.
    fold P in Hinv'.
    apply (get_project_found valid (ps ++ [P])).
    + apply Hinv'. by split.
    + apply elem_of_app. right. by apply list_elem_of_singleton.
    + apply ObjectId_oid_of_counter.
Qed.

End Bootstrap.

Lemma bootstrap_ai_tags_category_absent_witness :
  bootstrap_ai (id project_foo) 7 store_two = (Raise AttributeError, store_two).
Proof.
  apply (bootstrap_ai_tags_category_absent has_http_scheme
           [project_foo; project_go] store_two project_foo 7 store_two_inv).
  - apply list_elem_of_In. left. reflexivity.
  - reflexivity.
Defined.

Lemma bootstrap_ai_no_insights_after_create_witness :
  bootstrap_ai (id project_foo) 7 store_foo = (Raise AttributeError, store_foo) ∧
  get_project has_http_scheme (id project_foo) store_foo = Ret project_foo ∧
  pitch (ai project_foo) = None.
Proof.
  destruct (bootstrap_ai_no_insights_after_create has_http_scheme "Foo" 5 7
              empty_store store_foo project_foo) as [H1 H2].
  - reflexivity.
  - reflexivity.
  - split; [exact H1|].
    apply (H2 [] (empty_store_inv has_http_scheme)). reflexivity.
Defined.

(** C4: two bootstraps in a row of a stored Project without a category
    produce no [ai] content at all: each ends in [AttributeError], the
    store is never written, and the Project read back afterwards is the
    one stored before, its [updated_at] included. *)
Theorem bootstrap_ai_twice_category_absent valid ps s (p : Project) t1 t2 :
  store_inv valid ps s → p ∈ ps → category p = None → t1 < t2 →
  bootstrap_ai (id p) t1 s = (Raise AttributeError, s) ∧
  bootstrap_ai (id p) t2 (bootstrap_ai (id p) t1 s).2 = (Raise AttributeError, s) ∧
  get_project valid (id p) (bootstrap_ai (id p) t2 (bootstrap_ai (id p) t1 s).2).2
    = Ret p.
Proof.
  intros Hinv Hp Hc _.
  assert (H : ∀ t, bootstrap_ai (id p) t s = (Raise AttributeError, s)).
  { intros t. apply (bootstrap_ai_stored_None valid ps s (id p) (id p) p); try done.
    - by apply (store_inv_ObjectId valid ps s).
    - by apply (store_inv_lookup valid ps s). }
  repeat (rewrite H; cbn [snd]). repeat split.
  apply (get_project_found valid ps); try done.
  by apply (store_inv_ObjectId valid ps s).
Qed.

Lemma bootstrap_ai_twice_category_absent_witness :
  bootstrap_ai (id project_foo) 7 store_two = (Raise AttributeError, store_two) ∧
  bootstrap_ai (id project_foo) 8 (bootstrap_ai (id project_foo) 7 store_two).2
    = (Raise AttributeError, store_two) ∧
  get_project has_http_scheme (id project_foo)
    (bootstrap_ai (id project_foo) 8 (bootstrap_ai (id project_foo) 7 store_two).2).2
    = Ret project_foo.
Proof.
  apply (bootstrap_ai_twice_category_absent has_http_scheme
           [project_foo; project_go] store_two project_foo 7 8 store_two_inv).
  - apply list_elem_of_In. left. reflexivity.
  - reflexivity.
  - reflexivity.
Defined.

(** ** Identifiers given to [bootstrap_ai] *)

Lemma ObjectId_Raise project_id e : ObjectId project_id = Raise e → e = InvalidId.
Proof.
  unfold ObjectId. destruct (_ =? _)%nat; [destruct (fromhex project_id)|];
    congruence.
Qed.

(** A well-formed identifier that no stored document has is answered 404. *)
Lemma bootstrap_ai_absent_id project_id h now s :
  ObjectId project_id = Ret h → find_one h s = None →
  bootstrap_ai project_id now s = (Raise NotFound, s).
Proof. intros Hoid Hnone. unfold bootstrap_ai. by rewrite Hoid, Hnone. Qed.

(** C2: for a text that [ObjectId] refuses, [bootstrap_ai] does not answer
    NotFound: the [InvalidId] of the constructor leaves the handler
    unhandled, and the store is as before. *)
Theorem bootstrap_ai_malformed_id project_id now s :
  (∀ h, ObjectId project_id ≠ Ret h) →
  bootstrap_ai project_id now s = (Raise InvalidId, s) ∧ InvalidId ≠ NotFound.
Proof.
  intros Hbad. split; [|discriminate]. unfold bootstrap_ai.
  destruct (ObjectId project_id) as [h|e] eqn:E; [by destruct (Hbad h)|].
  by apply ObjectId_Raise in E as ->.
Qed.

Lemma bootstrap_ai_malformed_id_witness :
  bootstrap_ai "not-an-id" 7 store_two = (Raise InvalidId, store_two) ∧
  InvalidId ≠ NotFound.
Proof.
  apply (bootstrap_ai_malformed_id "not-an-id" 7 store_two).
  intros h. vm_compute. discriminate.
Defined.

(** ** The invariant holds in every reachable store *)

Section Reachable.
Variable valid : string → bool.
Variable env : Env.

Lemma create_project_effect payload now s :
  (create_project valid payload now s).2 = s ∨
  (create_project valid payload now s).2
  = {| docs := docs s ++ [stored_doc (created payload (oid_of_counter (next_oid s)) now)];
       next_oid := next_oid s + 1 |}.
Proof.
  unfold create_project, create_document, insert_one.
  destruct (existsb _ _); [by left|by right].
Qed.

Lemma bootstrap_ai_effect ps s project_id now :
  store_inv valid ps s →
  ∃ ps', store_inv valid ps' (bootstrap_ai project_id now s).2 ∧
         next_oid (bootstrap_ai project_id now s).2 = next_oid s.
Proof.
  intros Hinv. destruct (ObjectId project_id) as [h|e] eqn:Hoid.
  - destruct (lookup_project h ps) as [p|] eqn:Hp.
    + destruct (category p) as [c|] eqn:Hc.
      * rewrite (bootstrap_ai_stored valid ps s project_id h p c now) by done.
        eexists. split; [by apply bootstrap_ai_inv|done].
      * rewrite (bootstrap_ai_stored_None valid ps s project_id h p now) by done.
        by exists ps.
    + rewrite (bootstrap_ai_absent_id project_id h) by
        (done || by rewrite (find_one_stored valid ps), Hp).
      by exists ps.
  - unfold bootstrap_ai. rewrite Hoid. by exists ps.
Qed.

Lemma serve_inv ps s now rq :
  store_inv valid ps s → next_oid (serve valid env now rq s).2 ≤ 16 ^ 24 →
  ∃ ps', store_inv valid ps' (serve valid env now rq s).2.
Proof.
  intros Hinv. destruct rq; cbn [serve snd]; try (by exists ps).
  - destruct (post_projects valid body now s) as [r s'] eqn:E. cbn [snd].
    unfold post_projects in E.
    destruct (ProjectIn_validate valid body) as [payload|e] eqn:Hv.
    + destruct (create_project_effect payload now s) as [Hs|Hs];
        rewrite E in Hs; cbn [snd] in Hs; subst s'; [by exists ps|].
      cbn [next_oid]. intros Hb. eexists. apply create_project_inv; [done|lia|].
      by eapply ProjectIn_validate_ok.
    + injection E as _ <-. by exists ps.
  - destruct (bootstrap_ai project_id now s) as [r s'] eqn:E. cbn [snd]. intros _.
    destruct (bootstrap_ai_effect ps s project_id now Hinv) as (ps' & H & _).
    rewrite E in H. by exists ps'.
Qed.

Lemma serve_next_oid now rq s : next_oid s ≤ next_oid (serve valid env now rq s).2.
Proof.
  destruct rq; cbn [serve snd]; try lia.
  - destruct (post_projects valid body now s) as [r s'] eqn:E. cbn [snd].
    unfold post_projects in E.
    destruct (ProjectIn_validate valid body) as [payload|e].
    + destruct (create_project_effect payload now s) as [Hs|Hs];
        rewrite E in Hs; cbn [snd] in Hs; subst s'; cbn [next_oid]; lia.
    + injection E as _ <-. lia.
  - destruct (bootstrap_ai project_id now s) as [r s'] eqn:E. cbn [snd].
    destruct (bootstrap_ai_store project_id now s) as [Hs|(h & blk & Hs)];
      rewrite E in Hs; cbn [snd] in Hs; subst s'; cbn [update_one next_oid]; lia.
Qed.

(** Every store the service reaches while identifiers last holds Projects
    that meet the invariant. *)
Lemma reachable_store_inv s :
  reachable valid env s → next_oid s ≤ 16 ^ 24 → ∃ ps, store_inv valid ps s.
Proof.
  induction 1 as [|now rq s Hr IH]; intros Hb.
  - exists []. apply empty_store_inv.
  - destruct IH as [ps Hinv].
    + pose proof (serve_next_oid now rq s). lia.
    + by apply (serve_inv ps).
Qed.

End Reachable.

(** * Further properties of the handlers *)

(** ** [_serialize] *)

Lemma isoformat_field_lookup k (d : doc) k' :
  isoformat_field k d !! k'
  = if decide (k = k')
    then match d !! k with
         | Some (VDatetime t) => Some (VIsoText t)
         | o => o
         end
    else d !! k'.
Proof.
  unfold isoformat_field. case_decide as Hk.
  - subst k'. destruct (d !! k) as [[]|] eqn:E; rewrite ?E; try done.
    by rewrite lookup_insert_eq.
  - destruct (d !! k) as [[]|]; try done. by rewrite lookup_insert_ne.
Qed.

Lemma isoformat_field_fixed k (d : doc) :
  (∀ t, d !! k ≠ Some (VDatetime t)) → isoformat_field k d = d.
Proof.
  intros H. unfold isoformat_field.
  destruct (d !! k) as [[]|] eqn:E; try done. by destruct (H t).
Qed.

Lemma isoformat_fields_fixed (d : doc) :
  let d' := isoformat_field "updated_at" (isoformat_field "created_at" d) in
  isoformat_field "updated_at" (isoformat_field "created_at" d') = d'.
Proof.
  intros d'. subst d'.
  rewrite (isoformat_field_fixed "created_at").
  - apply isoformat_field_fixed. intros t.
    rewrite isoformat_field_lookup. rewrite decide_True by done.
    by destruct (isoformat_field "created_at" d !! "updated_at") as [[]|].
  - intros t. rewrite !isoformat_field_lookup.
    rewrite decide_False by done. rewrite decide_True by done.
    by destruct (d !! "created_at") as [[]|].
Qed.



Lemma serialize_with_id (d : doc) h :
  d !! "_id" = Some (VObjectId h) →
  ∃ d', _serialize (Some d) = Ret d' ∧
    d' !! "id" = Some (VStr h) ∧ d' !! "_id" = None ∧
    (∀ k, k = "created_at" ∨ k = "updated_at" →
       d' !! k = match d !! k with
                 | Some (VDatetime t) => Some (VIsoText t)
                 | o => o
                 end) ∧
    (∀ k, k ≠ "id" → k ≠ "_id" → k ≠ "created_at" → k ≠ "updated_at" →
       d' !! k = d !! k).
Proof.
  intros Hid. unfold _serialize. rewrite Hid. cbn [truthy py_str mbind res_bind].
  eexists. split; [done|]. repeat split.
  - rewrite !isoformat_field_lookup, !decide_False by done. by rewrite lookup_insert_eq.
  - rewrite !isoformat_field_lookup, !decide_False by done.
    by rewrite lookup_insert_ne, lookup_delete_eq.
  - intros k [->| ->].
    + rewrite !isoformat_field_lookup. rewrite decide_False by done.
      rewrite decide_True by done.
      by rewrite lookup_insert_ne, lookup_delete_ne.
    + rewrite (isoformat_field_lookup "updated_at"). rewrite decide_True by done.
      rewrite isoformat_field_lookup. rewrite decide_False by done.
      by rewrite lookup_insert_ne, lookup_delete_ne.
  - intros k H1 H2 H3 H4.
    rewrite !isoformat_field_lookup, !decide_False by done.
    by rewrite lookup_insert_ne, lookup_delete_ne.
Qed.


(** X2: on any document whose [_id] is an ObjectId, [_serialize] succeeds;
    the result has the identifier's text under [id] and no [_id], the two
    time stamps as ISO text when they were datetimes, and every other key as
    it was. *)
Theorem serialize_frame (d : doc) h :
  d !! "_id" = Some (VObjectId h) →
  ∃ d', _serialize (Some d) = Ret d' ∧
    d' !! "id" = Some (VStr h) ∧ d' !! "_id" = None ∧
    (∀ k, k = "created_at" ∨ k = "updated_at" →
       d' !! k = match d !! k with
                 | Some (VDatetime t) => Some (VIsoText t)
                 | o => o
                 end) ∧
    (∀ k, k ≠ "id" → k ≠ "_id" → k ≠ "created_at" → k ≠ "updated_at" →
       d' !! k = d !! k).
Proof. apply serialize_with_id. Qed.

Lemma serialize_frame_witness :
  ∃ d', _serialize (Some (stored_doc project_go)) = Ret d' ∧
    d' !! "id" = Some (VStr "000000000000000000000001") ∧ d' !! "_id" = None ∧
    (∀ k, k = "created_at" ∨ k = "updated_at" →
       d' !! k = match stored_doc project_go !! k with
                 | Some (VDatetime t) => Some (VIsoText t)
                 | o => o
                 end) ∧
    (∀ k, k ≠ "id" → k ≠ "_id" → k ≠ "created_at" → k ≠ "updated_at" →
       d' !! k = stored_doc project_go !! k).
Proof.
  apply (serialize_frame (stored_doc project_go) "000000000000000000000001").
  reflexivity.
Defined.

(** X3: [_serialize] is idempotent: applied to a document it has produced,
    it returns that document unchanged. *)
Theorem serialize_idempotent (d d' : doc) :
  _serialize (Some d) = Ret d' → _serialize (Some d') = Ret d'.
Proof.
  unfold _serialize. intros H.
  assert (Hd' : ∃ d1, d' = isoformat_field "updated_at" (isoformat_field "created_at" d1)
                 ∧ (d1 !! "_id" = None ∨ ∃ v, d1 !! "_id" = Some v ∧ truthy v = false)).
  { destruct (d !! "_id") as [v|] eqn:E.
    - destruct (truthy v) eqn:Hv.
      + destruct (py_str v) as [i|e]; [|discriminate]. injection H as <-.
        eexists. split; [done|]. left. by rewrite lookup_insert_ne, lookup_delete_eq.
      + injection H as <-. exists d. split; [done|]. right. by exists v.
    - injection H as <-. exists d. split; [done|]. by left. }
  destruct Hd' as (d1 & -> & Hid).
  assert (Hl : isoformat_field "updated_at" (isoformat_field "created_at" d1) !! "_id"
               = d1 !! "_id").
  { by rewrite !isoformat_field_lookup, !decide_False by done. }
  rewrite Hl.
  destruct Hid as [->|(v & -> & ->)]; cbn [mbind res_bind];
    by rewrite isoformat_fields_fixed.
Qed.

Lemma serialize_idempotent_witness :
  _serialize (Some (wire_doc project_go)) = Ret (wire_doc project_go).
Proof. apply (serialize_idempotent (stored_doc project_go)). reflexivity. Defined.

(** ** Creation, for any body and any store *)

Section CreateAny.
Variable valid : string → bool.


Lemma post_projects_Raise body now s e s' :
  post_projects valid body now s = (Raise e, s') → s' = s.
Proof.
  unfold post_projects. destruct (ProjectIn_validate valid body) as [payload|e'] eqn:Hv;
    [|by intros [= _ <-]].
  destruct (existsb (has_id (oid_of_counter (next_oid s))) (docs s)) eqn:Hf.
  - unfold create_project, create_document, insert_one. rewrite Hf. by intros [= _ <-].
  - rewrite create_project_fresh by (done || by eapply ProjectIn_validate_ok).
    discriminate.
Qed.


(** X5: a body without a text under [name], or whose [pricing] has no text
    under [type], is answered 422 and nothing is stored. *)
Theorem post_projects_missing_required body now s :
  (∀ n, body !! "name" ≠ Some (VStr n)) ∨
  (∃ pr, body !! "pricing" = Some (VDict pr) ∧ ∀ t, pr !! "type" ≠ Some (VStr t)) →
  post_projects valid body now s = (Raise SchemaViolation, s).
Proof.
  intros Hbad. unfold post_projects.
  assert (H : ∃ e, ProjectIn_validate valid body = Raise e); [|by destruct H as [e ->]].
  unfold ProjectIn_validate. destruct Hbad as [Hn|(pr & Hpr & Hty)].
  - apply bind_Raise_l. unfold get_str.
    destruct (body !! "name") as [[]|] eqn:E; try by eexists. by destruct (Hn s0).
  - do 4 (apply bind_Raise; intros ?). apply bind_Raise_l.
    unfold get_opt_model. rewrite Hpr. apply bind_Raise_l.
    unfold Pricing_validate. apply bind_Raise_l. unfold get_str.
    destruct (pr !! "type") as [[]|] eqn:E; try by eexists. by destruct (Hty s0).
Qed.

End CreateAny.


Lemma post_projects_missing_required_witness :
  post_projects has_http_scheme ∅ 5 store_two = (Raise SchemaViolation, store_two) ∧
  post_projects has_http_scheme
    (<["pricing" := VDict {["amount" := VInt 3]}]> body_foo) 5 store_two
  = (Raise SchemaViolation, store_two).
Proof.
  split; apply post_projects_missing_required.
  - left. intros n. rewrite lookup_empty. discriminate.
  - right. exists {["amount" := VInt 3]}. split; [reflexivity|].
    intros t. vm_compute. discriminate.
Defined.

(** ** Bootstrapping, for any document *)

Lemma has_id_set h (sets d : doc) :
  sets !! "_id" = None → has_id h (sets ∪ d) = has_id h d.
Proof.
  intros Hs. unfold has_id. rewrite lookup_union, Hs. by rewrite (left_id None _).
Qed.

Lemma find_update_one_set h (sets : doc) l d :
  sets !! "_id" = None → List.find (has_id h) l = Some d →
  List.find (has_id h) (update_one_set h sets l) = Some (sets ∪ d).
Proof.
  intros Hs. induction l as [|x l IH]; [done|].
  cbn [List.find update_one_set]. destruct (has_id h x) eqn:E.
  - intros [= ->]. cbn [List.find]. by rewrite has_id_set, E.
  - intros Hf. cbn [List.find]. rewrite E. by apply IH.
Qed.

Lemma find_has_id h l d :
  List.find (has_id h) l = Some d → ∃ h', d !! "_id" = Some (VObjectId h') ∧ h = h'.
Proof.
  intros H. apply find_some in H as [_ H]. unfold has_id in H.
  destruct (d !! "_id") as [[]|]; try discriminate.
  apply String.eqb_eq in H. by eexists.
Qed.



Lemma bootstrap_ai_Raise project_id now s e s' :
  bootstrap_ai project_id now s = (Raise e, s') → s' = s.
Proof.
  unfold bootstrap_ai. destruct (ObjectId project_id) as [h|e0]; [|by intros [= _ <-]].
  destruct (find_one h s) as [d|] eqn:Hf; [|by intros [= _ <-]].
  destruct (negb (truthy (VDict d))); [by intros [= _ <-]|].
  destruct (ai_block d) as [blk|e0] eqn:Hb; [|by intros [= _ <-]].
  unfold find_one, update_one. cbn [docs].
  rewrite (find_update_one_set h _ _ d) by done.
  apply find_has_id in Hf as (h' & Hid & _).
  assert (Hsid : (<["ai" := VDict blk]> (<["updated_at" := VDatetime now]> ∅) ∪ d)
                 !! "_id" = Some (VObjectId h')).
  { rewrite lookup_union, !lookup_insert_ne, lookup_empty by done.
    by rewrite (left_id None _). }
  destruct (serialize_with_id _ h' Hsid) as (d' & -> & _). discriminate.
Qed.



(** ** What every request keeps *)

Section Requests.
Variable valid : string → bool.
Variable env : Env.

(** X7: a request that ends in an exception has written nothing: the store
    is the one it was served on. *)
Theorem serve_failure_atomic now rq s e :
  (serve valid env now rq s).1 = Raise e → (serve valid env now rq s).2 = s.
Proof.
  destruct rq; cbn [serve fst snd]; try done.
  - destruct (post_projects valid body now s) as [[p|e'] s'] eqn:E; cbn [fst snd fmap res_fmap];
      [discriminate|].
    intros _. by apply post_projects_Raise in E.
  - destruct (bootstrap_ai project_id now s) as [[r|e'] s'] eqn:E; cbn [fst snd fmap res_fmap];
      [discriminate|].
    intros _. by apply bootstrap_ai_Raise in E.
Qed.

(** X8: no request removes or rewrites a document: after any request every
    document is still at its place with every field other than [ai] and
    [updated_at] as before, its identifier and [created_at] included; at
    most one document is added. *)
Theorem serve_documents_kept now rq s :
  (length (docs s) ≤ length (docs (serve valid env now rq s).2) ≤ S (length (docs s)))%nat ∧
  ∀ i d, docs s !! i = Some d →
    ∃ d', docs (serve valid env now rq s).2 !! i = Some d' ∧
      ∀ k, k ≠ "ai" → k ≠ "updated_at" → d' !! k = d !! k.
Proof.
  assert (Hrefl : ∀ s0 : Store,
            (length (docs s0) ≤ length (docs s0) ≤ S (length (docs s0)))%nat ∧
            ∀ i d, docs s0 !! i = Some d →
              ∃ d', docs s0 !! i = Some d' ∧
                ∀ k, k ≠ "ai" → k ≠ "updated_at" → d' !! k = d !! k).
  { intros s0. split; [lia|]. intros i d Hi. by exists d. }
  destruct rq; cbn [serve snd]; try apply Hrefl.
  - destruct (post_projects valid body now s) as [r s'] eqn:E. cbn [snd].
    unfold post_projects in E.
    destruct (ProjectIn_validate valid body) as [payload|e].
    + destruct (create_project_effect valid payload now s) as [Hs|Hs];
        rewrite E in Hs; cbn [snd] in Hs; subst s'; [apply Hrefl|].
      cbn [docs]. split; [rewrite length_app; cbn; lia|].
      intros i d Hi. exists d. split; [by apply lookup_app_l_Some|done].
    + injection E as _ <-. apply Hrefl.
  - destruct (bootstrap_ai project_id now s) as [r s'] eqn:E. cbn [snd].
    destruct (bootstrap_ai_store project_id now s) as [Hs|(h & blk & Hs)];
      rewrite E in Hs; cbn [snd] in Hs; subst s'; [apply Hrefl|].
    destruct (update_one_only_ai h blk now s) as [Hlen Hk].
    split; [lia|done].
Qed.

End Requests.

Lemma serve_failure_atomic_witness :
  (serve has_http_scheme {| DATABASE_URL := None; DATABASE_NAME := None |} 7
     (PostBootstrapAI "000000000000000000000000") store_two).2 = store_two.
Proof.
  apply (serve_failure_atomic has_http_scheme _ 7
           (PostBootstrapAI "000000000000000000000000") store_two AttributeError).
  reflexivity.
Defined.

(** ** How the operations compose *)



Lemma replace_first_twice h (p1 p2 : Project) ps (p : Project) :
  lookup_project h ps = Some p → id p1 = h →
  replace_first h p2 (replace_first h p1 ps) = replace_first h p2 ps.
Proof.
  unfold lookup_project. intros Hf Hid. induction ps as [|x ps IH]; [done|].
  cbn [List.find replace_first] in *. destruct (String.eqb h (id x)) eqn:E.
  - cbn [replace_first]. by rewrite Hid, String.eqb_refl.
  - cbn [replace_first]. rewrite E. by rewrite IH.
Qed.

Section Compose.
Variable valid : string → bool.

Lemma list_projects_all ps s :
  store_inv valid ps s → list_projects valid None None s = Ret ps.
Proof.
  intros Hinv. rewrite (list_projects_selected valid None None ps) by done.
  by rewrite list_filter_true.
Qed.



(** X11: bootstrapping twice leaves the store a single bootstrap at the
    later clock reading leaves: the first call's [ai] is rebuilt to the same
    content and only [updated_at] moves on. *)
Theorem bootstrap_twice_store ps s (p : Project) t1 t2 :
  store_inv valid ps s → p ∈ ps →
  (bootstrap_ai (id p) t2 (bootstrap_ai (id p) t1 s).2).2
  = (bootstrap_ai (id p) t2 s).2.
Proof.
  intros Hinv Hp.
  pose proof (store_inv_ObjectId valid ps s p Hinv Hp) as Hoid.
  pose proof (store_inv_lookup valid ps s p Hinv Hp) as Hl.
  destruct (category p) as [c|] eqn:Hc.
  - rewrite (bootstrap_ai_stored valid ps s (id p) (id p) p c t1) by done.
    cbn [snd].
    pose proof (bootstrap_ai_inv valid ps s (id p) p c t1 Hinv Hl) as Hinv1.
    rewrite (bootstrap_ai_stored valid _ _ (id p) (id p) (bootstrapped p c t1) c t2 Hinv1);
      [|done|by apply (lookup_replace_first _ _ _ p)|done].
    rewrite (bootstrap_ai_stored valid ps s (id p) (id p) p c t2) by done.
    cbn [snd next_oid]. f_equal. f_equal.
    by apply (replace_first_twice _ _ _ _ p).
  - rewrite (bootstrap_ai_stored_None valid ps s (id p) (id p) p t1) by done.
    cbn [snd]. reflexivity.
Qed.

End Compose.



Lemma bootstrap_twice_store_witness :
  (bootstrap_ai (id project_go) 8 (bootstrap_ai (id project_go) 7 store_two).2).2
  = (bootstrap_ai (id project_go) 8 store_two).2.
Proof.
  apply (bootstrap_twice_store has_http_scheme [project_foo; project_go] store_two
           project_go 7 8 store_two_inv).
  apply list_elem_of_In. right. left. reflexivity.
Defined.

(** ** What is returned, whatever the store holds *)

Lemma serialize_other (d d' : doc) k :
  _serialize (Some d) = Ret d' →
  k ≠ "id" → k ≠ "_id" → k ≠ "created_at" → k ≠ "updated_at" →
  d' !! k = d !! k.
Proof.
  unfold _serialize. intros H H1 H2 H3 H4.
  apply bind_Ret in H as (d1 & Hd1 & [= <-]).
  rewrite !isoformat_field_lookup, !decide_False by done.
  destruct (d !! "_id") as [v|]; [|by injection Hd1 as <-].
  destruct (truthy v); [|by injection Hd1 as <-].
  apply bind_Ret in Hd1 as (i & _ & [= <-]).
  by rewrite lookup_insert_ne, lookup_delete_ne.
Qed.

Lemma mapM_Ret {A B} (f : A → res B) l l' :
  mapM f l = Ret l' → Forall2 (λ a b, f a = Ret b) l l'.
Proof.
  revert l'. induction l as [|a l IH]; intros l' H.
  - injection H as <-. constructor.
  - cbn [mapM] in H. apply bind_Ret in H as (b & Hb & H).
    apply bind_Ret in H as (bs & Hbs & [= <-]). constructor; [done|by apply IH].
Qed.

Lemma mapM_as_str_elem l te t :
  mapM as_str l = Ret te →
  existsb (λ x, match x with VStr s' => String.eqb t s' | _ => false end) l = true →
  t ∈ te.
Proof.
  revert te. induction l as [|x l IH]; intros te H He; [done|].
  cbn [mapM] in H. apply bind_Ret in H as (b & Hb & H).
  apply bind_Ret in H as (bs & Hbs & [= <-]).
  cbn [existsb] in He. apply orb_true_iff in He as [He|He].
  - destruct x; try discriminate. injection Hb as <-.
    apply String.eqb_eq in He as ->. left.
  - right. by apply IH.
Qed.

Section Sound.
Variable valid : string → bool.

Lemma ProjectIn_validate_fields (d : doc) (p : ProjectIn) :
  ProjectIn_validate valid d = Ret p →
  get_opt_str "category" d = Ret (category p) ∧
  get_strs "tech_stack" d = Ret (tech_stack p).
Proof.
  unfold ProjectIn_validate. intros H.
  apply bind_Ret in H as (na & _ & H). apply bind_Ret in H as (de & _ & H).
  apply bind_Ret in H as (te & Hte & H). apply bind_Ret in H as (ca & Hca & H).
  apply bind_Ret in H as (pr & _ & H). apply bind_Ret in H as (st & _ & H).
  apply bind_Ret in H as (li & _ & H). apply bind_Ret in H as (th & _ & H).
  by injection H as <-.
Qed.

Lemma Project_validate_base (d : doc) (p : Project) :
  Project_validate valid d = Ret p →
  ProjectIn_validate valid d = Ret (project_in p) ∧ get_str "id" None d = Ret (id p).
Proof.
  unfold Project_validate. intros H.
  apply bind_Ret in H as (base & Hbase & H). apply bind_Ret in H as (i & Hi & H).
  apply bind_Ret in H as (cr & _ & H). apply bind_Ret in H as (up & _ & H).
  apply bind_Ret in H as (a & _ & H). apply bind_Ret in H as (vi & _ & H).
  apply bind_Ret in H as (sa & _ & H). apply bind_Ret in H as (wa & _ & H).
  by injection H as <-.
Qed.

Lemma matched_category c (d d' : doc) (p : Project) :
  field_is c (d !! "category") = true →
  _serialize (Some d) = Ret d' → Project_validate valid d' = Ret p →
  category p = Some c.
Proof.
  intros Hf Hs Hv. apply Project_validate_base in Hv as [Hv _].
  apply ProjectIn_validate_fields in Hv as [Hca _].
  unfold get_opt_str in Hca. rewrite (serialize_other d d') in Hca by done.
  unfold field_is in Hf. destruct (d !! "category") as [[]|]; try discriminate.
  apply String.eqb_eq in Hf as ->. by injection Hca.
Qed.

Lemma matched_tech t (d d' : doc) (p : Project) :
  field_is t (d !! "tech_stack") = true →
  _serialize (Some d) = Ret d' → Project_validate valid d' = Ret p →
  t ∈ tech_stack p.
Proof.
  intros Hf Hs Hv. apply Project_validate_base in Hv as [Hv _].
  apply ProjectIn_validate_fields in Hv as [_ Hte].
  unfold get_strs in Hte. rewrite (serialize_other d d') in Hte by done.
  unfold field_is in Hf. destruct (d !! "tech_stack") as [[]|]; try discriminate.
  by eapply mapM_as_str_elem.
Qed.

Lemma matches_lookup (filt : gmap string cond) (d : doc) k c :
  matches filt d = true → filt !! k = Some c → holds c (d !! k) = true.
Proof.
  unfold matches. intros H Hk. apply bool_decide_eq_true_1 in H.
  by apply (map_Forall_lookup_1 _ _ _ _ H Hk).
Qed.

Lemma truthy_nonempty c : c ≠ "" → truthy (VStr c) = true.
Proof.
  intros Hc. cbn. destruct (String.eqb c "") eqn:E; [|done].
  by apply String.eqb_eq in E.
Qed.

Lemma filtered_Forall2 {A B} (f : A → bool) (R : A → B → Prop) (Q : B → Prop) l l' :
  (∀ a b, f a = true → R a b → Q b) →
  Forall2 R (List.filter f l) l' → Forall Q l'.
Proof.
  intros HQ H.
  assert (Hf : Forall (λ a, f a = true) (List.filter f l)).
  { apply Forall_forall. intros a Ha. apply list_elem_of_In, filter_In in Ha. tauto. }
  induction H as [|a b l1 l2 Hab _ IH]; [constructor|].
  apply Forall_cons in Hf as [Ha Hf]. constructor; [by eapply HQ|by apply IH].
Qed.

(** X12: the filters of [list_projects] are sound on any store. When the
    call returns, every Project in the answer has the category asked for (a
    non-empty text) as its category, and has the tech asked for (a non-empty
    text) in its tech stack. *)
Theorem list_projects_sound category_filter tech_filter s ps :
  list_projects valid category_filter tech_filter s = Ret ps →
  (∀ c, category_filter = Some c → c ≠ "" →
     Forall (λ p : Project, category p = Some c) ps) ∧
  (∀ t, tech_filter = Some t → t ≠ "" →
     Forall (λ p : Project, t ∈ tech_stack p) ps).
Proof.
  unfold list_projects, get_documents, find. intros H. apply mapM_Ret in H.
  split.
  - intros c -> Hc. rewrite truthy_nonempty in H by done.
    eapply filtered_Forall2; [|exact H]. cbn beta.
    intros d p Hm Hp. apply bind_Ret in Hp as (d' & Hs & Hv).
    apply (matched_category c d d' p); [|done..].
    apply (matches_lookup _ d "category" (Eq c)) in Hm; [done|].
    destruct tech_filter as [t|]; [destruct (truthy (VStr t))|];
      [by rewrite lookup_insert_ne, lookup_insert_eq|by rewrite lookup_insert_eq..].
  - intros t -> Ht. rewrite truthy_nonempty in H by done.
    eapply filtered_Forall2; [|exact H]. cbn beta.
    intros d p Hm Hp. apply bind_Ret in Hp as (d' & Hs & Hv).
    apply (matched_tech t d d' p); [|done..].
    apply (matches_lookup _ d "tech_stack" (In_ [t])) in Hm;
      [|by rewrite lookup_insert_eq].
    cbn [holds existsb] in Hm. by rewrite orb_false_r in Hm.
Qed.

(** X13: [get_project] is sound on any store: a Project it returns carries
    the identifier that was asked for, in the text form [ObjectId] gives
    it. *)
Theorem get_project_sound project_id s (p : Project) :
  get_project valid project_id s = Ret p → ObjectId project_id = Ret (id p).
Proof.
  unfold get_project. destruct (ObjectId project_id) as [h|e]; [|discriminate].
  destruct (find_one h s) as [d|] eqn:Hf; [|discriminate].
  destruct (truthy (VDict d)); [|discriminate].
  intros H. apply bind_Ret in H as (d' & Hs & Hv).
  apply find_has_id in Hf as (h' & Hid & <-).
  destruct (serialize_with_id d h Hid) as (d'' & Hs' & Hi & _).
  rewrite Hs in Hs'. injection Hs' as <-.
  apply Project_validate_base in Hv as [_ Hv]. unfold get_str in Hv.
  rewrite Hi in Hv. by injection Hv as <-.
Qed.

End Sound.

Lemma list_projects_sound_witness :
  (∀ c, Some "Dev Tools" = Some c → c ≠ "" →
     Forall (λ p : Project, category p = Some c) [project_go]) ∧
  (∀ t, Some "Go" = Some t → t ≠ "" →
     Forall (λ p : Project, t ∈ tech_stack p) [project_go]).
Proof.
  apply (list_projects_sound has_http_scheme (Some "Dev Tools") (Some "Go") store_two).
  reflexivity.
Defined.

Lemma get_project_sound_witness :
  ObjectId "000000000000000000000001" = Ret (id project_go).
Proof.
  apply (get_project_sound has_http_scheme "000000000000000000000001" store_two).
  reflexivity.
Defined.

(** ** The texts [bootstrap_ai] derives *)






Lemma join_empty l : join ", " l = "" ↔ l = [] ∨ l = [""].
Proof.
  destruct l as [|x [|y l]]; cbn [join].
  - split; [by left|done].
  - split; [intros ->; by right|]. by intros [?|[= ->]].
  - split.
    + intros H. by destruct x.
    + intros [?|?]; discriminate.
Qed.



(** X15: the pitch names the technologies joined by ", ", and falls back to
    "modern web stack" exactly when that text is empty: when the tech stack
    is empty or is the single empty text. *)
Theorem bootstrap_pitch_techs (p : Project) c :
  category p = Some c →
  ∃ blk, ai_block (stored_doc p) = Ret blk ∧
    blk !! "pitch"
    = Some (VStr (name p ++ " helps teams move faster by automating key workflows using "
                  ++ (if decide (tech_stack p = [] ∨ tech_stack p = [""])
                      then "modern web stack" else join ", " (tech_stack p))
                  ++ ".")).
Proof.
  intros Hc. rewrite ai_block_stored, Hc. eexists. split; [reflexivity|].
  cbn [AIInsights_dump bootstrapped_ai pitch dump_opt]. rewrite lookup_insert_ne by done.
  rewrite lookup_insert_eq. do 4 f_equal. unfold techs_of. cbn [truthy].
  case_decide as Hl.
  - apply join_empty in Hl. by rewrite Hl.
  - destruct (String.eqb (join ", " (tech_stack p)) "") eqn:E; [|done].
    apply String.eqb_eq, join_empty in E. done.
Qed.

Lemma bootstrap_pitch_techs_witness :
  ∃ blk, ai_block (stored_doc project_go) = Ret blk ∧
    blk !! "pitch"
    = Some (VStr (name project_go
                  ++ " helps teams move faster by automating key workflows using "
                  ++ (if decide (tech_stack project_go = [] ∨ tech_stack project_go = [""])
                      then "modern web stack" else join ", " (tech_stack project_go))
                  ++ ".")).
Proof. apply (bootstrap_pitch_techs project_go "Dev Tools"). reflexivity. Defined.

(** ** [test_database] *)

(** X16: whatever the state of the store handle, the diagnostics have
    exactly the six keys; [database_url] and [database_name] tell only
    whether the two environment settings are set (what the handle wrote
    there is overwritten); at most ten collections are listed, the first
    ones the store names; and for a live handle the answer is the one
    [test_database] gives on the store. *)
Theorem test_database_on_shape env db :
  dom (test_database_on env db)
  = {["backend"; "database"; "database_url"; "database_name";
      "connection_status"; "collections"]} ∧
  test_database_on env db !! "database_url" = Some (getenv_set (DATABASE_URL env)) ∧
  test_database_on env db !! "database_name" = Some (getenv_set (DATABASE_NAME env)) ∧
  (∃ names, test_database_on env db !! "collections" = Some (dump_strs names) ∧
     (length names ≤ 10)%nat ∧
     ∀ h all, db = Some h → db_collections h = inr all → names = take 10 all) ∧
  (test_database_on env db !! "connection_status" = Some (VStr "Connected")
   ↔ db ≠ None) ∧
  ∀ name s, test_database_on env (Some (live_db name s)) = test_database env s.
Proof.
  split; [|split; [|split; [|split; [|split]]]].
  - destruct db as [[n [msg|l]]|]; unfold test_database_on; cbn [db_collections db_name];
      rewrite !dom_insert_L, dom_empty_L; set_solver.
  - by destruct db as [[n [msg|l]]|].
  - by destruct db as [[n [msg|l]]|].
  - destruct db as [[n [msg|l]]|].
    + exists []. repeat split; [cbn; lia|]. by intros h all [= <-].
    + exists (take 10 l). repeat split; [rewrite length_take; lia|].
      by intros h all [= <-] [= <-].
    + exists []. repeat split; [cbn; lia|]. by intros h all.
  - destruct db as [[n [msg|l]]|]; split; try done.
  - intros name s. reflexivity.
Qed.

(** ** Every store the service reaches *)

(** X17: every store the service reaches from the empty one (while the
    generator has identifiers left) can be listed: the unfiltered list
    succeeds with one Project per document, no two Projects share an
    identifier, and [get_project] on the identifier of each listed Project
    returns that Project. *)
Theorem reachable_consistent valid env s :
  reachable valid env s → next_oid s ≤ 16 ^ 24 →
  ∃ ps, list_projects valid None None s = Ret ps ∧
    length ps = length (docs s) ∧ NoDup (id <$> ps) ∧
    ∀ p, p ∈ ps → get_project valid (id p) s = Ret p.
Proof.
  intros Hr Hb. destruct (reachable_store_inv valid env s Hr Hb) as [ps Hinv].
  exists ps. split; [by apply list_projects_all|]. split; [|split].
  - by rewrite (inv_docs _ _ _ Hinv), length_fmap.
  - apply (inv_nodup _ _ _ Hinv).
  - intros p Hp. apply (get_project_found valid ps); try done.
    by apply (store_inv_ObjectId valid ps s).
Qed.

Lemma reachable_consistent_witness :
  ∃ ps, list_projects has_http_scheme None None store_two = Ret ps ∧
    length ps = length (docs store_two) ∧ NoDup (id <$> ps) ∧
    ∀ p, p ∈ ps → get_project has_http_scheme (id p) store_two = Ret p.
Proof.
  apply (reachable_consistent has_http_scheme
           {| DATABASE_URL := None; DATABASE_NAME := None |} store_two).
  - apply (reachable_serve has_http_scheme _ 6 (PostProjects body_go) store_foo).
    apply (reachable_serve has_http_scheme _ 5 (PostProjects body_foo) empty_store).
    apply reachable_empty.
  - vm_compute. discriminate.
Defined.

(** ** Which failure is answered *)

Lemma bind_Raise_inv {A B} (m : res A) (k : A → res B) e :
  m ≫= k = Raise e → m = Raise e ∨ ∃ a, m = Ret a ∧ k a = Raise e.
Proof.
  destruct m as [a|e']; intros H.
  - right. by exists a.
  - left. by injection H as ->.
Qed.













Section Failures.
Variable valid : string → bool.






End Failures.

Lemma py_join_Raise sep v e :
  py_join sep v = Raise e → e = TypeError ∨ e = NotModelled.
Proof.
  destruct v; cbn [py_join]; try (intros [= <-]; by auto).
  intros H. apply bind_Raise_inv in H as [H|(? & _ & H)]; [|discriminate].
  left. induction l as [|x l IH]; [discriminate|]. cbn [mapM] in H.
  apply bind_Raise_inv in H as [H|(? & _ & H)].
  - destruct x; congruence.
  - apply bind_Raise_inv in H as [H|(? & _ & H)]; [by apply IH|discriminate].
Qed.

Lemma ai_block_Raise d e :
  ai_block d = Raise e → e = TypeError ∨ e = AttributeError ∨ e = NotModelled.
Proof.
  unfold ai_block. intros H.
  apply bind_Raise_inv in H as [H|(? & _ & H)].
  { apply py_join_Raise in H as [->| ->]; auto. }
  apply bind_Raise_inv in H as [H|(? & _ & H)].
  { unfold py_str in H. repeat case_match; try discriminate; injection H as <-; auto. }
  apply bind_Raise_inv in H as [H|(? & _ & H)].
  { unfold py_str in H. repeat case_match; try discriminate; injection H as <-; auto. }
  apply bind_Raise_inv in H as [H|(? & _ & H)].
  { unfold py_split in H. repeat case_match; try discriminate; injection H as <-; auto. }
  apply bind_Raise_inv in H as [H|(? & _ & H)]; [|discriminate].
  unfold py_list_add in H. repeat case_match; try discriminate; injection H as <-; auto.
Qed.

(** X19: the failures of [bootstrap_ai], on any store. It answers 404 if and
    only if [ObjectId] accepts the text and no document has that identifier;
    it ends in the unhandled [InvalidId] if and only if [ObjectId] refuses
    the text, and never answers 400; any other failure is an unhandled
    exception raised while the block is built from the stored document. *)
Theorem bootstrap_ai_failures project_id now s :
  ((bootstrap_ai project_id now s).1 = Raise NotFound
   ↔ ∃ h, ObjectId project_id = Ret h ∧ find_one h s = None) ∧
  ((bootstrap_ai project_id now s).1 = Raise InvalidId
   ↔ ∀ h, ObjectId project_id ≠ Ret h) ∧
  (∀ e, (bootstrap_ai project_id now s).1 = Raise e →
     e = NotFound ∨ e = InvalidId ∨ e = TypeError ∨ e = AttributeError ∨
     e = NotModelled).
Proof.
  unfold bootstrap_ai. destruct (ObjectId project_id) as [h|e0] eqn:Hoid.
  - destruct (find_one h s) as [d|] eqn:Hf.
    + pose proof Hf as Hf'. apply find_has_id in Hf' as (h' & Hid & <-).
      assert (Ht : truthy (VDict d) = true).
      { cbn. rewrite bool_decide_eq_false_2; [done|]. intros ->.
        by rewrite lookup_empty in Hid. }
      rewrite Ht. cbn [negb].
      destruct (ai_block d) as [blk|e1] eqn:Hb; cbn [fst].
      * unfold find_one, update_one in *. cbn [docs].
        rewrite (find_update_one_set h _ _ d) by done.
        assert (Hsid : (<["ai" := VDict blk]> (<["updated_at" := VDatetime now]> ∅) ∪ d)
                       !! "_id" = Some (VObjectId h)).
        { rewrite lookup_union, !lookup_insert_ne, lookup_empty by done.
          by rewrite (left_id None _). }
        destruct (serialize_with_id _ h Hsid) as (d' & -> & _).
        split; [|split].
        -- split; [discriminate|]. intros (h2 & [= <-] & ?). congruence.
        -- split; [discriminate|intros H; by destruct (H h)].
        -- discriminate.
      * apply ai_block_Raise in Hb.
        split; [|split].
        -- split; [intros [= ->]; by destruct Hb as [?|[?|?]]|].
           intros (h2 & [= <-] & ?). congruence.
        -- split; [intros [= ->]; by destruct Hb as [?|[?|?]]|intros H; by destruct (H h)].
        -- intros e [= <-]. tauto.
    + cbn [fst]. split; [|split].
      * split; [by exists h|done].
      * split; [discriminate|intros H; by destruct (H h)].
      * intros e [= <-]. by left.
  - cbn [fst]. apply ObjectId_Raise in Hoid as ->. split; [|split].
    + split; [discriminate|by intros (h & ? & _)].
    + split; [by intros _ h|done].
    + intros e [= <-]. right. by left.
Qed.

(** ** Documents with keys missing *)

(** X20: the defaults of [bootstrap_ai] for keys a document does not have.
    Without a [category] key (unlike a stored [None]) the block is built and
    its tags are the tech stack alone; without any of [name],
    [description], [tech_stack] and [category] the block is the one of
    "Your MVP", the default description, "modern web stack" and no tags. *)
Theorem ai_block_missing_keys (d : doc) :
  d !! "category" = None →
  (∀ n te, d !! "name" = Some (VStr n) → d !! "description" = None →
     d !! "tech_stack" = Some (dump_strs te) →
     ∃ blk, ai_block d = Ret blk ∧ blk !! "tags" = Some (dump_strs te)) ∧
  (d !! "name" = None → d !! "description" = None → d !! "tech_stack" = None →
     ∃ blk, ai_block d = Ret blk ∧
       blk !! "summary"
       = Some (VStr ("Your MVP " ++ em_dash ++
                     " An innovative micro-app that solves a focused problem.")) ∧
       blk !! "pitch"
       = Some (VStr "Your MVP helps teams move faster by automating key workflows using modern web stack.") ∧
       blk !! "landing_copy"
       = Some (VStr "Ship faster with Your MVP. Built with modern web stack.") ∧
       blk !! "tags" = Some (VList [])).
Proof.
  intros Hc. split.
  - intros n te Hn Hd Ht. unfold ai_block, get_default. rewrite Hc, Hn, Hd, Ht.
    cbn [default from_option Datatypes.id]. rewrite py_join_strs.
    cbn [mbind res_bind py_str py_or truthy py_split].
    rewrite py_list_add_strs. cbn [mbind res_bind]. eexists. split; [reflexivity|].
    reflexivity.
  - intros Hn Hd Ht. unfold ai_block, get_default. rewrite Hc, Hn, Hd, Ht.
    eexists. split; [reflexivity|]. repeat split.
Qed.

Lemma ai_block_missing_keys_witness :
  (∃ blk, ai_block (<["name" := VStr "Foo"]> {["tech_stack" := dump_strs ["Go"]]})
          = Ret blk ∧ blk !! "tags" = Some (dump_strs ["Go"])) ∧
  (∃ blk, ai_block ∅ = Ret blk ∧
     blk !! "summary"
     = Some (VStr ("Your MVP " ++ em_dash ++
                   " An innovative micro-app that solves a focused problem.")) ∧
     blk !! "pitch"
     = Some (VStr "Your MVP helps teams move faster by automating key workflows using modern web stack.") ∧
     blk !! "landing_copy"
     = Some (VStr "Ship faster with Your MVP. Built with modern web stack.") ∧
     blk !! "tags" = Some (VList [])).
Proof.
  split.
  - destruct (ai_block_missing_keys
                (<["name" := VStr "Foo"]> {["tech_stack" := dump_strs ["Go"]]}))
      as [H _]; [reflexivity|].
    apply (H "Foo" ["Go"]); reflexivity.
  - destruct (ai_block_missing_keys ∅) as [_ H]; [reflexivity|].
    apply H; reflexivity.
Defined.

(** ** The models *)

(** X21: [model_dump] and the validation of [ProjectIn] are inverse on every
    payload that meets the declared constraints: the dump has the eight
    fields and validates to the payload itself. *)
Theorem ProjectIn_dump_roundtrip valid (p : ProjectIn) :
  ProjectIn_ok valid p →
  dom (ProjectIn_dump p)
  = {["name"; "description"; "tech_stack"; "category"; "pricing"; "status";
      "links"; "thumbnails"]} ∧
  ProjectIn_validate valid (ProjectIn_dump p) = Ret p.
Proof.
  intros Hok. split.
  - unfold ProjectIn_dump. rewrite !dom_insert_L, dom_empty_L. set_solver.
  - by apply ProjectIn_validate_dump.
Qed.

Lemma ProjectIn_dump_roundtrip_witness :
  dom (ProjectIn_dump project_go)
  = {["name"; "description"; "tech_stack"; "category"; "pricing"; "status";
      "links"; "thumbnails"]} ∧
  ProjectIn_validate has_http_scheme (ProjectIn_dump project_go) = Ret (project_in project_go).
Proof. apply (ProjectIn_dump_roundtrip has_http_scheme project_go). by split. Defined.
